(** * Request gateway of the image-caption front end

    A shallow embedding of [frontend/lib/api.js]: the configuration
    object, the [APIError] class, the request executor [makeRequest], the
    file validator and the three public operations, together with the
    part of the JavaScript run time they lean on (timers, abort
    controllers, [fetch], [Response.json], [ToBoolean], [ToString],
    [Number.prototype.toFixed]).

    Asynchronous code is written in a small monad over an explicit
    [World]; a computation completes by returning, by throwing, or stays
    pending for ever. *)

From Stdlib Require Import String Ascii List NArith ZArith Arith Lia Bool DecimalString.
Import ListNotations.
Open Scope string_scope.

Set Implicit Arguments.
Set Warnings "-register-all".

(** ** JavaScript numbers

    The module never does arithmetic on the numbers it receives from its
    callers or from the remote service: it only tests them for truthiness
    and renders them.  Those two built-ins are therefore the interface. *)

Class JsNumber (number : Type) := {
  (** [ToBoolean]: false for [+0], [-0] and [NaN], true otherwise. *)
  Number_toBoolean : number -> bool;
  (** [Number.prototype.toString()] in radix 10. *)
  Number_toString : number -> string
}.

(** Non-negative integers (sizes, status codes, configured limits) are
    rendered as their decimal numeral. *)
Definition N_toString (n : N) : string := NilZero.string_of_uint (N.to_uint n).

(** [(num / den).toFixed(2)] for the exact quotient of two non-negative
    integers: [n] is the integer for which [n / 100] is closest to the
    quotient, the larger one on a tie; the numeral is [n] with a point
    before its last two digits, padded with zeros to three digits. *)
Definition hundredths (num den : N) : N := ((2 * 100 * num + den) / (2 * den))%N.

Definition two_digits (d : N) : string :=
  if (d <? 10)%N then "0" ++ N_toString d else N_toString d.

Definition toFixed2 (num den : N) : string :=
  let n := hundredths num den in
  N_toString (n / 100) ++ "." ++ two_digits (n mod 100).

(** ** Files, form data and request options *)

Record File := {
  file_name : string;
  size : N;            (* length in bytes *)
  type : string        (* declared media type *)
}.

Inductive FormValue :=
| FileValue (f : File)
| StringValue (s : string).

(** A [FormData] object is its list of entries, in insertion order. *)
Definition FormData := list (string * FormValue).

Definition append (fd : FormData) (name : string) (v : FormValue) : FormData :=
  (fd ++ [(name, v)])%list.

(** The second argument of [fetch]; [None] is an absent property. *)
Record RequestInit := {
  method : option string;
  body : option FormData;
  signal : option nat      (* the controller whose signal is attached *)
}.

Definition no_options : RequestInit :=
  {| method := None; body := None; signal := None |}.

(** [{...options, signal: controller.signal}] *)
Definition with_signal (options : RequestInit) (controller : nat) : RequestInit :=
  {| method := method options; body := body options; signal := Some controller |}.

(** The method [fetch] uses when none is given. *)
Definition request_method (init : RequestInit) : string :=
  match method init with Some m => m | None => "GET" end.

(** ** Exceptions *)

Inductive ErrorName := TypeError | SyntaxError | AbortError.

(** A thrown value is an instance of the module's own [APIError] class or
    an exception of the run time. *)
Inductive Exn :=
| APIError (message : string) (status : N)
| Native (name : ErrorName) (message : string).

Definition name_of (n : ErrorName) : string :=
  match n with
  | TypeError => "TypeError"
  | SyntaxError => "SyntaxError"
  | AbortError => "AbortError"
  end.

(** [error.name] *)
Definition exn_name (e : Exn) : string :=
  match e with
  | APIError _ _ => "APIError"
  | Native n _ => name_of n
  end.

(** ** Timers, events and the world *)

Inductive Callback :=
| abort (controller : nat).      (* [() => controller.abort()] *)

Record Timer := {
  timer_id : nat;
  timer_due : N;                 (* absolute time, in ms *)
  timer_callback : Callback
}.

Inductive Event :=
| EvSetTimeout (id : nat) (delay : N)
| EvClearTimeout (id : nat)
| EvTimerFired (id : nat)
| EvAbort (controller : nat)
| EvFetch (url : string) (init : RequestInit).

Record World := {
  now : N;                       (* clock, in ms *)
  armed : list Timer;            (* timers set and neither fired nor cleared *)
  next_id : nat;                 (* handle counter *)
  log : list Event               (* what happened so far, oldest first *)
}.

Definition emit (e : Event) (w : World) : World :=
  {| now := now w; armed := armed w; next_id := next_id w; log := (log w ++ [e])%list |}.

Definition callback_target (c : Callback) : nat :=
  match c with abort k => k end.

Definition handles_in_use (l : list Timer) : list nat :=
  (map timer_id l ++ map (fun t => callback_target (timer_callback t)) l)%list.

(** A handle no armed timer carries or refers to. *)
Definition fresh (w : World) : nat :=
  Nat.max (next_id w) (S (list_max (handles_in_use (armed w)))).

Definition aborts (c : nat) (t : Timer) : bool :=
  (callback_target (timer_callback t) =? c)%nat.

(** The armed timer that will abort controller [c] first, if there is one. *)
Fixpoint abort_timer (c : nat) (l : list Timer) : option Timer :=
  match l with
  | [] => None
  | t :: r =>
      if aborts c t then
        match abort_timer c r with
        | Some t' => if (timer_due t' <? timer_due t)%N then Some t' else Some t
        | None => Some t
        end
      else abort_timer c r
  end.

Definition disarm (id : nat) (l : list Timer) : list Timer :=
  filter (fun t => negb (timer_id t =? id)%nat) l.

(** ** Completions and the monad *)

Inductive Completion (A : Type) :=
| Return (a : A)
| Throw (e : Exn)
| Pending.                       (* the promise never settles *)

Arguments Return {A} a.
Arguments Throw {A} e.
Arguments Pending {A}.

Definition M (A : Type) := World -> Completion A * World.

Definition ret {A} (a : A) : M A := fun w => (Return a, w).

Definition throw {A} (e : Exn) : M A := fun w => (Throw e, w).

Definition bind {A B} (m : M A) (k : A -> M B) : M B :=
  fun w =>
    match m w with
    | (Return a, w') => k a w'
    | (Throw e, w') => (Throw e, w')
    | (Pending, w') => (Pending, w')
    end.

(** [try { m } catch (error) { h error }], and [promise.catch(h)]. *)
Definition try_catch {A} (m : M A) (h : Exn -> M A) : M A :=
  fun w =>
    match m w with
    | (Throw e, w') => h e w'
    | r => r
    end.

Declare Scope js_scope.
Delimit Scope js_scope with js.
Notation "x <- m ;; k" := (bind m (fun x => k))
  (at level 61, m at next level, right associativity) : js_scope.
Notation "m ;; k" := (bind m (fun _ => k))
  (at level 61, right associativity) : js_scope.
Open Scope js_scope.

Section Gateway.

Context (number : Type) `{JsNumber number}.

(** ** JSON values and the conversions applied to them *)

Inductive Json :=
| JNull
| JBool (b : bool)
| JNumber (n : number)
| JString (s : string)
| JArray (items : list Json)
| JObject (props : list (string * Json)).

Definition ToBoolean (v : Json) : bool :=
  match v with
  | JNull => false
  | JBool b => b
  | JNumber n => Number_toBoolean n
  | JString s => negb (s =? "")
  | JArray _ => true
  | JObject _ => true
  end.

(** Own property of a parsed object, whose list of properties holds each
    key once; [None] is [undefined]. *)
Fixpoint lookup (key : string) (props : list (string * Json)) : option Json :=
  match props with
  | [] => None
  | (k, v) :: r => if k =? key then Some v else lookup key r
  end.

Definition has_own (key : string) (props : list (string * Json)) : bool :=
  match lookup key props with Some _ => true | None => false end.

(** [ToString], [None] when the conversion throws.  An array joins its
    elements with a comma, a [null] element contributing nothing.  An
    object prints through [Object.prototype.toString], unless an entry
    [toString] of its own hides that method: the entry of a parsed
    object is never callable, [valueOf] yields no primitive either, and
    the conversion throws a [TypeError]. *)
Fixpoint ToString (v : Json) : option string :=
  match v with
  | JNull => Some "null"
  | JBool true => Some "true"
  | JBool false => Some "false"
  | JNumber n => Some (Number_toString n)
  | JString s => Some s
  | JArray items =>
      option_map (String.concat ",")
        ((fix each (l : list Json) : option (list string) :=
            match l with
            | [] => Some []
            | x :: r =>
                match match x with JNull => Some "" | _ => ToString x end, each r with
                | Some s, Some ss => Some (s :: ss)
                | _, _ => None
                end
            end) items)
  | JObject props =>
      if has_own "toString" props then None else Some "[object Object]"
  end.

(** [errorData.detail]: a property read on [null] throws; a primitive,
    an array or an object without the property gives [undefined]. *)
Definition get_detail (errorData : Json) : M (option Json) :=
  match errorData with
  | JNull => throw (Native TypeError "Cannot read properties of null (reading 'detail')")
  | JObject props => ret (lookup "detail" props)
  | _ => ret None
  end.

(** [detail || fallback] *)
Definition or_else (detail : option Json) (fallback : string) : Json :=
  match detail with
  | Some v => if ToBoolean v then v else JString fallback
  | None => JString fallback
  end.

(** [new APIError(message, status)]: [Error] converts the message to a
    string, which may throw. *)
Definition new_APIError (message : Json) (status : N) : M Exn :=
  match ToString message with
  | Some s => ret (APIError s status)
  | None => throw (Native TypeError "Cannot convert object to primitive value")
  end.

(** ** Responses and the transport *)

Inductive Body :=
| BodyJson (v : Json)                 (* the text parses to [v] *)
| BodyMalformed (message : string)    (* the text is not JSON *)
| BodyBroken (message : string)       (* the stream fails while being read *)
| BodyStalls.                         (* the stream never ends *)

Record Response := {
  status : N;
  response_body : Body
}.

(** [response.ok] *)
Definition ok (r : Response) : bool :=
  ((200 <=? status r) && (status r <=? 299))%N.

(** [response.json()]: the text is read and parsed, or the read fails, or
    it never ends.  How long a read that ends takes is not modelled: the
    clock of the world stands still across it. *)
Definition json (r : Response) : M Json :=
  match response_body r with
  | BodyJson v => ret v
  | BodyMalformed m => throw (Native SyntaxError m)
  | BodyBroken m => throw (Native TypeError m)
  | BodyStalls => fun w => (Pending, w)
  end.

(** What the network does with one request, left alone: answer after
    some time, fail after some time, or never settle. *)
Inductive FetchBehaviour :=
| Responds (after : N) (r : Response)
| Fails (after : N) (message : string)
| Hangs.

(** The environment of the module. *)
Record Runtime := {
  NEXT_PUBLIC_API_URL : option string;            (* [process.env] entry *)
  transport : string -> RequestInit -> FetchBehaviour;
  timer_first_on_tie : bool    (* which task runs first when both are due at the same instant *)
}.

Variable rt : Runtime.

(** ** Configuration *)

Record ApiConfig := {
  baseURL : option string;
  timeout : N;
  maxFileSize : N;
  maxBatchSize : N
}.

Definition API_CONFIG : ApiConfig :=
  {| baseURL := NEXT_PUBLIC_API_URL rt;
     timeout := 60000;
     maxFileSize := 10 * 1024 * 1024;
     maxBatchSize := 3 |}.

(** A possibly undefined string inside a template literal. *)
Definition interpolate (s : option string) : string :=
  match s with Some x => x | None => "undefined" end.

(** ** Run-time primitives *)

(** [new AbortController()] *)
Definition new_AbortController : M nat :=
  fun w =>
    let c := fresh w in
    (Return c,
     {| now := now w; armed := armed w; next_id := S c; log := log w |}).

(** [setTimeout(callback, delay)] *)
Definition setTimeout (callback : Callback) (delay : N) : M nat :=
  fun w =>
    let id := fresh w in
    (Return id,
     {| now := now w;
        armed := {| timer_id := id; timer_due := (now w + delay)%N;
                    timer_callback := callback |} :: armed w;
        next_id := S id;
        log := (log w ++ [EvSetTimeout id delay])%list |}).

(** [clearTimeout(id)] *)
Definition clearTimeout (id : nat) : M unit :=
  fun w =>
    (Return tt,
     {| now := now w; armed := disarm id (armed w); next_id := next_id w;
        log := (log w ++ [EvClearTimeout id])%list |}).

(** Does a timer due at [due] run before a settlement at [at_]? *)
Definition timer_runs_first (due at_ : N) : bool :=
  if (due =? at_)%N then timer_first_on_tie rt else (due <? at_)%N.

(** The network settles the call, with completion [c], at time [at_]. *)
Definition settled (c : Completion Response) (at_ : N) (w : World)
  : Completion Response * World :=
  (c, {| now := at_; armed := armed w; next_id := next_id w; log := log w |}).

(** The timer [t] fires: its callback aborts the controller and the
    pending call rejects. *)
Definition fire (t : Timer) (w : World) : Completion Response * World :=
  (Throw (Native AbortError "signal is aborted without reason"),
   {| now := timer_due t;
      armed := disarm (timer_id t) (armed w);
      next_id := next_id w;
      log := (log w ++ [EvTimerFired (timer_id t);
                        EvAbort (callback_target (timer_callback t))])%list |}).

(** A call that would settle [after] ms from now, against the timer (if
    any) that aborts its signal. *)
Definition race (deadline : option Timer) (after : N) (c : Completion Response)
  (w : World) : Completion Response * World :=
  match deadline with
  | Some t =>
      if timer_runs_first (timer_due t) (now w + after)%N
      then fire t w
      else settled c (now w + after)%N w
  | None => settled c (now w + after)%N w
  end.

(** [await fetch(url, init)]: the call is issued and the caller is
    suspended until the network settles it or a timer aborts its signal,
    whichever comes first.  A network failure rejects with a
    [TypeError].  Timers that abort other controllers belong to other
    calls and are left alone; the signal passed in is one that has not
    been aborted yet, as is every signal [makeRequest] passes. *)
Definition fetch (url : string) (init : RequestInit) : M Response :=
  fun w =>
    let w1 := emit (EvFetch url init) w in
    let deadline :=
      match signal init with
      | Some c => abort_timer c (armed w1)
      | None => None
      end in
    match transport rt url init with
    | Responds after r => race deadline after (Return r) w1
    | Fails after m => race deadline after (Throw (Native TypeError m)) w1
    | Hangs =>
        match deadline with
        | Some t => fire t w1
        | None => (Pending, w1)
        end
    end.

(** ** The request executor *)

Definition makeRequest (url : string) (options : RequestInit) : M Json :=
  controller <- new_AbortController ;;
  timeoutId <- setTimeout (abort controller) (timeout API_CONFIG) ;;
  try_catch
    (response <- fetch (interpolate (baseURL API_CONFIG) ++ url)
                       (with_signal options controller) ;;
     clearTimeout timeoutId ;;
     if negb (ok response) then
       errorData <- try_catch (json response) (fun _ => ret (JObject [])) ;;
       detail <- get_detail errorData ;;
       apiError <- new_APIError
                     (or_else detail ("HTTP " ++ N_toString (status response)))
                     (status response) ;;
       throw apiError
     else
       json response)
    (fun error =>
       clearTimeout timeoutId ;;
       if exn_name error =? "AbortError" then
         throw (APIError "Request timeout" 408)
       else
         throw error).

(** ** Validation and the public operations *)

(** [array.push(x)] *)
Definition push {A} (l : list A) (x : A) : list A := (l ++ [x])%list.

Definition startsWith (s prefix : string) : bool := String.prefix prefix s.

Definition validateFile (file : File) : list string :=
  let errors : list string := [] in
  let errors :=
    if (maxFileSize API_CONFIG <? size file)%N then
      push errors ("File too large (" ++ toFixed2 (size file) (1024 * 1024) ++ "MB). Max: 10MB")
    else errors in
  let errors :=
    if negb (startsWith (type file) "image/") then
      push errors "File must be an image"
    else errors in
  errors.

Record Options := {
  opt_method : option string;       (* [options.method] *)
  opt_beamWidth : option number     (* [options.beamWidth] *)
}.

Definition generateCaption (file : File) (options : Options) : M Json :=
  let validationErrors := validateFile file in
  if (0 <? List.length validationErrors)%nat then
    throw (APIError (String.concat ", " validationErrors) 400)
  else
    let formData : FormData := [] in
    let formData := append formData "file" (FileValue file) in
    let formData :=
      match opt_method options with
      | Some m =>                       (* a string is truthy unless empty *)
          if negb (m =? "") then append formData "method" (StringValue m)
          else formData
      | None => formData                (* [undefined] is falsy *)
      end in
    let formData :=
      match opt_beamWidth options with
      | Some bw =>
          if Number_toBoolean bw
          then append formData "beam_width" (StringValue (Number_toString bw))
          else formData
      | None => formData
      end in
    makeRequest "/generate-caption"
      {| method := Some "POST"; body := Some formData; signal := None |}.

Definition batchGenerateCaptions (files : list File) : M Json :=
  if (maxBatchSize API_CONFIG <? N.of_nat (List.length files))%N then
    throw (APIError ("Max " ++ N_toString (maxBatchSize API_CONFIG) ++ " files allowed") 400)
  else
    let formData : FormData :=
      fold_left (fun fd file => append fd "files" (FileValue file)) files [] in
    makeRequest "/batch-generate"
      {| method := Some "POST"; body := Some formData; signal := None |}.

Definition checkHealth : M Json :=
  makeRequest "/health" no_options.

(** ** Vocabulary of the statements

    Names for the handles, the request and the events of one call of
    [makeRequest] started in world [w]. *)

Definition request_url (url : string) : string :=
  interpolate (baseURL API_CONFIG) ++ url.

Definition controller_of (w : World) : nat := fresh w.

Definition timer_of (w : World) : nat := S (fresh w).

(** What the transport does with the request of this call. *)
Definition issued (url : string) (options : RequestInit) (w : World) : FetchBehaviour :=
  transport rt (request_url url) (with_signal options (controller_of w)).

Definition the_timer (w : World) : Timer :=
  {| timer_id := timer_of w; timer_due := (now w + timeout API_CONFIG)%N;
     timer_callback := abort (controller_of w) |}.

(** The timer is set, then the request is sent. *)
Definition call_events (url : string) (options : RequestInit) (w : World) : list Event :=
  [EvSetTimeout (timer_of w) (timeout API_CONFIG);
   EvFetch (request_url url) (with_signal options (controller_of w))].

Definition cleared (w : World) : list Event := [EvClearTimeout (timer_of w)].

Definition cancelled (w : World) : list Event :=
  [EvTimerFired (timer_of w); EvAbort (controller_of w)].

(** The world a call started in [w] leaves behind, given the time it
    ended and what happened. *)
Definition after_call (w : World) (at_ : N) (events : list Event) : World :=
  {| now := at_; armed := armed w; next_id := S (timer_of w);
     log := (log w ++ events)%list |}.

(** The completion a response that arrived before the timer leads to. *)
Definition answer (r : Response) : Completion Json :=
  let fallback := "HTTP " ++ N_toString (status r) in
  if ok r then
    match response_body r with
    | BodyJson v => Return v
    | BodyMalformed m => Throw (Native SyntaxError m)
    | BodyBroken m => Throw (Native TypeError m)
    | BodyStalls => Pending
    end
  else
    match response_body r with
    | BodyJson JNull =>
        Throw (Native TypeError "Cannot read properties of null (reading 'detail')")
    | BodyJson (JObject props) =>
        match ToString (or_else (lookup "detail" props) fallback) with
        | Some message => Throw (APIError message (status r))
        | None => Throw (Native TypeError "Cannot convert object to primitive value")
        end
    | BodyStalls => Pending
    | _ => Throw (APIError fallback (status r))
    end.

Definition timed_out (url : string) (options : RequestInit) (w : World)
  : Completion Json * World :=
  (Throw (APIError "Request timeout" 408),
   after_call w (now w + timeout API_CONFIG)
     (call_events url options w ++ cancelled w ++ cleared w)).

Definition answered (url : string) (options : RequestInit) (w : World)
  (at_ : N) (c : Completion Json) : Completion Json * World :=
  match c with
  | Throw e =>
      (Throw e, after_call w at_ (call_events url options w ++ cleared w ++ cleared w))
  | _ => (c, after_call w at_ (call_events url options w ++ cleared w))
  end.

(** The whole call, by cases on what the transport does. *)
Definition executor_outcome (url : string) (options : RequestInit) (w : World)
  : Completion Json * World :=
  let due := (now w + timeout API_CONFIG)%N in
  match issued url options w with
  | Responds after r =>
      if timer_runs_first due (now w + after)
      then timed_out url options w
      else answered url options w (now w + after) (answer r)
  | Fails after m =>
      if timer_runs_first due (now w + after)
      then timed_out url options w
      else (Throw (Native TypeError m),
            after_call w (now w + after) (call_events url options w ++ cleared w))
  | Hangs => timed_out url options w
  end.

(** A parsed failure body the executor can turn into a message: not
    [null], and not an object whose truthy [detail] has no string form. *)
Definition usable_error_body (v : Json) : bool :=
  match v with
  | JNull => false
  | JObject props =>
      match lookup "detail" props with
      | Some d =>
          if ToBoolean d
          then match ToString d with Some _ => true | None => false end
          else true
      | None => true
      end
  | _ => true
  end.

(** The body of [r] is delivered and, when [r] reports a failure and the
    body is JSON, that body is usable. *)
Definition regular (r : Response) : bool :=
  match response_body r with
  | BodyStalls => false
  | BodyJson v => ok r || usable_error_body v
  | _ => true
  end.

(** How a public operation started in [w] may end: with the decoded
    payload of a success response, with an [APIError], or with an
    exception of the run time handed on as it was thrown, the last only
    for a network fault or for a success response whose body could not
    be read. *)
Definition resolution (w : World) (run : Completion Json * World) : Prop :=
  match fst run with
  | Return v =>
      exists url options rest t r,
        log (snd run) = (log w ++ call_events url options w ++ rest)%list /\
        issued url options w = Responds t r /\
        ok r = true /\ response_body r = BodyJson v
  | Throw (APIError _ _) => True
  | Throw (Native n m) =>
      exists url options rest,
        log (snd run) = (log w ++ call_events url options w ++ rest)%list /\
        ((exists t, issued url options w = Fails t m /\ n = TypeError) \/
         (exists t r, issued url options w = Responds t r /\ ok r = true /\
            ((response_body r = BodyMalformed m /\ n = SyntaxError) \/
             (response_body r = BodyBroken m /\ n = TypeError))))
  | Pending => False
  end.

(** Entries of a form under one field name. *)
Definition entries (name : string) (fd : FormData) : list FormValue :=
  map snd (filter (fun e => fst e =? name) fd).

End Gateway.

Arguments JNull {number}.
Arguments JBool {number} b.
Arguments JString {number} s.
Arguments BodyMalformed {number} message.
Arguments BodyBroken {number} message.
Arguments BodyStalls {number}.
Arguments Fails {number} after message.
Arguments Hangs {number}.

(** ** Integer-valued numbers

    The instance used for concrete runs: an integer (of magnitude below
    10^21, where JavaScript prints plain decimal digits) is falsy exactly
    when it is zero and prints as its decimal numeral. *)

#[export] Instance JsNumber_Z : JsNumber Z := {|
  Number_toBoolean z := negb (z =? 0)%Z;
  Number_toString z := NilZero.string_of_int (Z.to_int z)
|}.

(** ** Vocabulary of the statements *)

(** The transport settles the call no later than [budget] ms after it
    was issued. *)
Definition settles_within {number} (budget : N) (b : FetchBehaviour number) : bool :=
  match b with
  | Responds t _ => (t <=? budget)%N
  | Fails t _ => (t <=? budget)%N
  | Hangs => false
  end.

Definition is_fetch (e : Event) : bool :=
  match e with EvFetch _ _ => true | _ => false end.

Definition is_abort (e : Event) : bool :=
  match e with EvAbort _ => true | _ => false end.

(** ** Sample inputs *)

Definition idle : World := {| now := 0; armed := []; next_id := 0; log := [] |}.

Definition sample_png : File :=
  {| file_name := "cat.png"; size := 204800; type := "image/png" |}.

Definition sample_scan : File :=
  {| file_name := "scan.pdf"; size := 15728640; type := "application/pdf" |}.

(** A run time whose network treats every request alike. *)
Definition runtime_with (b : FetchBehaviour Z) : Runtime Z :=
  {| NEXT_PUBLIC_API_URL := Some "http://localhost:8000";
     transport := fun _ _ => b;
     timer_first_on_tie := true |}.

Definition healthy : FetchBehaviour Z :=
  Responds 20 {| status := 200;
                 response_body := BodyJson (JObject [("status", JString "ok")]) |}.

Definition offline : FetchBehaviour Z := Fails 5 "Failed to fetch".

Definition slow : FetchBehaviour Z :=
  Responds 75000 {| status := 200; response_body := BodyJson (JObject []) |}.

Definition remote_timeout : FetchBehaviour Z :=
  Responds 10 {| status := 408;
                 response_body := BodyMalformed "Unexpected token '<'" |}.

Definition unavailable : FetchBehaviour Z :=
  Responds 10 {| status := 503;
                 response_body := BodyMalformed "Unexpected token '<'" |}.

Definition model_unavailable : FetchBehaviour Z :=
  Responds 10 {| status := 500;
                 response_body :=
                   BodyJson (JObject [("detail", JString "model unavailable")]) |}.

Definition empty_detail : FetchBehaviour Z :=
  Responds 10 {| status := 500;
                 response_body := BodyJson (JObject [("detail", JString "")]) |}.

Definition null_error_body : FetchBehaviour Z :=
  Responds 10 {| status := 500; response_body := BodyJson JNull |}.

Definition unprintable_detail : FetchBehaviour Z :=
  Responds 10 {| status := 422;
                 response_body :=
                   BodyJson (JObject [("detail",
                              JObject [("toString", JNumber 1%Z)])]) |}.

Definition garbled_success : FetchBehaviour Z :=
  Responds 10 {| status := 200;
                 response_body := BodyMalformed "Unexpected end of JSON input" |}.

Definition stalled_success : FetchBehaviour Z :=
  Responds 10 {| status := 200; response_body := BodyStalls |}.

(** ** The callers: the page and its components

    [Home] (page.tsx) probes the service when it mounts; [ImageUpload]
    submits the selected image; [CaptionDisplay] prints the method that
    was used.  Component state is passed explicitly; what a component
    does to the outside ([alert], the callback prop) is recorded in it. *)

(** [error.message] *)
Definition exn_message (e : Exn) : string :=
  match e with
  | APIError m _ => m
  | Native _ m => m
  end.

(** [s.replace(pattern, replacement)] for a pattern and a replacement of
    one character each: only the first occurrence is replaced. *)
Fixpoint replace_first (pattern replacement : ascii) (s : string) : string :=
  match s with
  | EmptyString => EmptyString
  | String c r =>
      if Ascii.eqb c pattern then String replacement r
      else String c (replace_first pattern replacement r)
  end.

Definition is_lower (c : ascii) : bool :=
  (97 <=? nat_of_ascii c)%nat && (nat_of_ascii c <=? 122)%nat.

(** [toUpperCase] on one ASCII character. *)
Definition upper (c : ascii) : ascii :=
  if is_lower c then ascii_of_nat (nat_of_ascii c - 32) else c.

(** [s.toUpperCase()], for strings of ASCII characters. *)
Fixpoint toUpperCase (s : string) : string :=
  match s with
  | EmptyString => EmptyString
  | String c r => String (upper c) (toUpperCase r)
  end.

(** The method cell of [CaptionDisplay]:
    [captionData.method_used.replace('_', ' ').toUpperCase()]. *)
Definition method_label (method_used : string) : string :=
  toUpperCase (replace_first "_" " " method_used).

Fixpoint ascii_only (s : string) : bool :=
  match s with
  | EmptyString => true
  | String c r => (nat_of_ascii c <? 128)%nat && ascii_only r
  end.

(** Occurrences of a character. *)
Fixpoint occurrences (c : ascii) (s : string) : nat :=
  match s with
  | EmptyString => 0
  | String d r => (if Ascii.eqb d c then 1 else 0) + occurrences c r
  end.

Section Callers.

Context (number : Type) `{JsNumber number}.
Variable rt : Runtime number.

(** [health.status]: as for [detail], reading from [null] throws. *)
Definition get_status (health : Json number) : M (option (Json number)) :=
  match health with
  | JNull => throw (Native TypeError "Cannot read properties of null (reading 'status')")
  | JObject props => ret (lookup "status" props)
  | _ => ret None
  end.

(** The effect of [Home]:
    [checkHealth().then(health => setApiStatus(health.status))
                  .catch(() => setApiStatus('error'))].
    The value is the one [setApiStatus] is called with. *)
Definition Home_effect : M (option (Json number)) :=
  try_catch
    (health <- checkHealth rt ;; get_status health)
    (fun _ => ret (Some (JString "error"))).

(** [apiStatus] once the effect has run its course: the initial
    ['checking'] for as long as [setApiStatus] is not called. *)
Definition apiStatus_after (w : World) : option (Json number) :=
  match fst (Home_effect w) with
  | Return v => v
  | _ => Some (JString "checking")
  end.

(** [apiStatus === 'error'], the condition of the "Service Unavailable"
    banner. *)
Definition shows_unavailable (apiStatus : option (Json number)) : bool :=
  match apiStatus with
  | Some (JString s) => s =? "error"
  | _ => false
  end.

(** State of [ImageUpload], with what it did to the outside. *)
Record Upload := {
  selectedImage : option File;
  loading : bool;
  ui_method : string;                 (* state [method] *)
  beamWidth : number;
  alerts : list string;               (* messages passed to [alert], oldest first *)
  captionData : option (Json number)  (* last value given to [onCaptionGenerated] *)
}.

Definition alert (message : string) (s : Upload) : Upload :=
  {| selectedImage := selectedImage s; loading := loading s;
     ui_method := ui_method s; beamWidth := beamWidth s;
     alerts := (alerts s ++ [message])%list; captionData := captionData s |}.

Definition setLoading (b : bool) (s : Upload) : Upload :=
  {| selectedImage := selectedImage s; loading := b;
     ui_method := ui_method s; beamWidth := beamWidth s;
     alerts := alerts s; captionData := captionData s |}.

Definition onCaptionGenerated (data : Json number) (s : Upload) : Upload :=
  {| selectedImage := selectedImage s; loading := loading s;
     ui_method := ui_method s; beamWidth := beamWidth s;
     alerts := alerts s; captionData := Some data |}.

(** [handleSubmit]: the completion of the async function, the state it
    leaves and the world. *)
Definition handleSubmit (s : Upload) (w : World) : Completion unit * Upload * World :=
  match selectedImage s with
  | None => (Return tt, alert "Please select an image first!" s, w)
  | Some image =>
      let s := setLoading true s in
      match generateCaption rt image
              {| opt_method := Some (ui_method s); opt_beamWidth := Some (beamWidth s) |} w
      with
      | (Return result, w') =>
          (Return tt, setLoading false (onCaptionGenerated result s), w')
      | (Throw error, w') =>
          (Return tt, setLoading false (alert ("Error: " ++ exn_message error) s), w')
      | (Pending, w') => (Pending, s, w')
      end
  end.

(** [disabled={loading || !selectedImage}] on the submit button. *)
Definition submit_disabled (s : Upload) : bool :=
  loading s || match selectedImage s with Some _ => false | None => true end.

(** The transport treats a request alike whatever signal it carries. *)
Definition signal_blind : Prop :=
  forall url init c c',
    transport rt url (with_signal init c) = transport rt url (with_signal init c').

End Callers.

Arguments signal_blind {number} rt.

(** A form in the state the page starts in, with an image selected. *)
Definition ready_upload (image : File) (bw : Z) : Upload Z :=
  {| selectedImage := Some image; loading := false; ui_method := "beam_search";
     beamWidth := bw; alerts := []; captionData := None |}.

Definition sample_just_over : File :=
  {| file_name := "big.png"; size := 10485761; type := "image/png" |}.

(** A deployment in which the base URL was never configured. *)
Definition unconfigured (b : FetchBehaviour Z) : Runtime Z :=
  {| NEXT_PUBLIC_API_URL := None;
     transport := fun _ _ => b;
     timer_first_on_tie := true |}.

(** A validation failure as a list of findings. *)
Definition validation_failure : FetchBehaviour Z :=
  Responds 10 {| status := 422;
                 response_body :=
                   BodyJson (JObject [("detail",
                     JArray [JObject [("msg", JString "field required")];
                             JObject [("msg", JString "value is not a valid integer")]])]) |}.

(** Has neither [null] nor an object with an entry [toString]: a plain
    object. *)
Definition plain_object {number} (v : Json number) : bool :=
  match v with
  | JObject props => negb (has_own "toString" props)
  | _ => false
  end.

Definition failing_health : FetchBehaviour Z :=
  Responds 10 {| status := 200;
                 response_body := BodyJson (JObject [("status", JString "error")]) |}.

(** ** Facts about handles and timers *)

Lemma list_max_In (l : list nat) (n : nat) : In n l -> n <= list_max l.
Proof.
  intros Hin. assert (Hall : Forall (fun k => k <= list_max l) l)
    by (apply list_max_le; lia).
  rewrite Forall_forall in Hall. now apply Hall.
Qed.

Lemma fresh_above_ids (w : World) (t : Timer) :
  In t (armed w) -> timer_id t < fresh w.
Proof.
  intros Hin. unfold fresh, handles_in_use.
  assert (timer_id t <= list_max (map timer_id (armed w) ++
            map (fun t => callback_target (timer_callback t)) (armed w))).
  { apply list_max_In, in_or_app. left. now apply in_map. }
  lia.
Qed.

Lemma fresh_above_targets (w : World) (t : Timer) :
  In t (armed w) -> callback_target (timer_callback t) < fresh w.
Proof.
  intros Hin. unfold fresh, handles_in_use.
  assert (callback_target (timer_callback t) <= list_max (map timer_id (armed w) ++
            map (fun t => callback_target (timer_callback t)) (armed w))).
  { apply list_max_In, in_or_app. right.
    now apply (in_map (fun t => callback_target (timer_callback t))). }
  lia.
Qed.

Lemma abort_timer_none (c : nat) (l : list Timer) :
  (forall t, In t l -> callback_target (timer_callback t) < c) ->
  abort_timer c l = None.
Proof.
  induction l as [|t r IH]; intros Hlt; simpl; [reflexivity|].
  unfold aborts. assert (Ht := Hlt t (or_introl eq_refl)).
  destruct (Nat.eqb_spec (callback_target (timer_callback t)) c); [lia|].
  apply IH. intros t' Hin. apply Hlt. now right.
Qed.

Lemma disarm_absent (id : nat) (l : list Timer) :
  (forall t, In t l -> timer_id t < id) -> disarm id l = l.
Proof.
  induction l as [|t r IH]; intros Hlt; simpl; [reflexivity|].
  assert (Ht := Hlt t (or_introl eq_refl)).
  destruct (Nat.eqb_spec (timer_id t) id); [lia|]. simpl.
  f_equal. apply IH. intros t' Hin. apply Hlt. now right.
Qed.

Lemma disarm_idempotent (id : nat) (l : list Timer) :
  disarm id (disarm id l) = disarm id l.
Proof.
  unfold disarm. induction l as [|t r IH]; simpl; [reflexivity|].
  destruct (negb (timer_id t =? id)%nat) eqn:E; simpl; rewrite ?E, IH; reflexivity.
Qed.

(** ** The request executor and the operations built on it *)

Section GatewayFacts.

Context (number : Type) `{JsNumber number}.
Variable rt : Runtime number.

(** The timer's handle is the one after the controller's. *)
Lemma fresh_after_controller (w : World) :
  fresh {| now := now w; armed := armed w; next_id := S (fresh w); log := log w |}
  = S (fresh w).
Proof. unfold fresh at 1. simpl. unfold fresh. lia. Qed.

Lemma disarm_the_timer (w : World) :
  disarm (timer_of w) (the_timer rt w :: armed w) = armed w.
Proof.
  unfold disarm. simpl. rewrite Nat.eqb_refl. simpl.
  apply disarm_absent. intros t Hin. unfold timer_of.
  pose proof (fresh_above_ids w t Hin). lia.
Qed.

Lemma disarm_after (w : World) : disarm (timer_of w) (armed w) = armed w.
Proof.
  apply disarm_absent. intros t Hin. unfold timer_of.
  pose proof (fresh_above_ids w t Hin). lia.
Qed.

Lemma abort_timer_the_timer (w : World) :
  abort_timer (controller_of w) (the_timer rt w :: armed w) = Some (the_timer rt w).
Proof.
  simpl. unfold aborts. simpl. rewrite Nat.eqb_refl.
  rewrite abort_timer_none; [reflexivity|].
  intros t Hin. now apply fresh_above_targets.
Qed.

(** The executor agrees with its summary by cases: the controller and
    the timer get fresh handles, so the timer found for the signal is the
    one just set, and clearing it restores the armed timers. *)
Lemma makeRequest_outcome (url : string) (options : RequestInit) (w : World) :
  makeRequest rt url options w = executor_outcome rt url options w.
Proof.
  pose proof (abort_timer_the_timer w) as Hd.
  pose proof (disarm_the_timer w) as Hd1.
  pose proof (disarm_after w) as Hd2.
  pose proof (fresh_after_controller w) as Hf.
  unfold executor_outcome, timed_out, answered, answer, cleared, cancelled, issued, after_call,
    call_events, request_url, the_timer, timer_of, controller_of in *.
  unfold makeRequest, bind, try_catch, new_AbortController, setTimeout, fetch, emit.
  cbn [now armed next_id log signal with_signal timeout API_CONFIG baseURL] in *.
  rewrite Hf, Hd.
  unfold race, fire, settled, clearTimeout, json, get_detail, new_APIError, ret, throw.
  cbn [now armed next_id log timer_due timer_id timer_callback callback_target].
  destruct (transport rt _ _) as [after r|after m|];
    [destruct (timer_runs_first rt _ _);
       [|destruct (ok r); cbn [negb];
          (destruct (response_body r) as [v| | |]; [destruct v| | |])]
    |destruct (timer_runs_first rt _ _)|];
    cbn [exn_name name_of String.eqb Ascii.eqb Bool.eqb now armed next_id log
         ToString or_else lookup];
    try match goal with |- context [ToString ?d] => destruct (ToString d) end;
    cbn [exn_name name_of String.eqb Ascii.eqb Bool.eqb now armed next_id log];
    rewrite ?Hd1, ?disarm_idempotent, ?Hd1, ?Hd2, <- ?app_assoc; try reflexivity.
Qed.

(** Case analysis on what the transport did and on what that led to. *)
Ltac executor_cases rt url options w :=
  rewrite makeRequest_outcome; unfold executor_outcome, timed_out, answered;
  destruct (issued rt url options w) as [?t ?r|?t ?m|];
  try destruct (timer_runs_first rt _ _);
  try match goal with
      | |- context [answer ?r] => destruct (answer r) as [?v|?ex|]
      end.

(** Away from the tie, the earlier of the two runs first. *)
Lemma timer_loses (start t : N) :
  (t < timeout (API_CONFIG rt))%N ->
  timer_runs_first rt (start + timeout (API_CONFIG rt)) (start + t) = false.
Proof.
  intros Hlt. unfold timer_runs_first.
  destruct (N.eqb_spec (start + timeout (API_CONFIG rt)) (start + t)) as [E|_]; [lia|].
  apply N.ltb_ge. lia.
Qed.

Lemma timer_wins (start t : N) :
  (timeout (API_CONFIG rt) < t)%N ->
  timer_runs_first rt (start + timeout (API_CONFIG rt)) (start + t) = true.
Proof.
  intros Hlt. unfold timer_runs_first.
  destruct (N.eqb_spec (start + timeout (API_CONFIG rt)) (start + t)) as [E|_]; [lia|].
  apply N.ltb_lt. lia.
Qed.

(** A response that arrives before the timer is due decides the call. *)
Lemma makeRequest_answered (url : string) (options : RequestInit) (w : World)
  (t : N) (r : Response number) :
  issued rt url options w = Responds t r ->
  (t < timeout (API_CONFIG rt))%N ->
  makeRequest rt url options w = answered rt url options w (now w + t) (answer r).
Proof.
  intros Hb Ht. rewrite makeRequest_outcome. unfold executor_outcome.
  rewrite Hb, timer_loses by assumption. reflexivity.
Qed.

(** A success response with a JSON body, in time, is returned decoded. *)
Lemma makeRequest_decoded (url : string) (options : RequestInit) (w : World)
  (t : N) (r : Response number) (v : Json number) :
  issued rt url options w = Responds t r ->
  (t < timeout (API_CONFIG rt))%N ->
  ok r = true -> response_body r = BodyJson v ->
  fst (makeRequest rt url options w) = Return v.
Proof.
  intros Hb Ht Hok Hbody. rewrite (makeRequest_answered _ _ _ Hb Ht).
  unfold answered, answer. now rewrite Hok, Hbody.
Qed.

(** A call the transport leaves unsettled past the deadline times out. *)
Lemma makeRequest_timed_out (url : string) (options : RequestInit) (w : World) :
  settles_within (timeout (API_CONFIG rt)) (issued rt url options w) = false ->
  makeRequest rt url options w = timed_out rt url options w.
Proof.
  intros Hs. rewrite makeRequest_outcome. unfold executor_outcome.
  destruct (issued rt url options w) as [t r|t m|]; simpl in Hs;
    try (apply N.leb_gt in Hs; rewrite timer_wins by assumption); reflexivity.
Qed.

(** The events of a call always begin with arming the timer and sending
    the request. *)
Lemma makeRequest_log (url : string) (options : RequestInit) (w : World) :
  exists rest,
    log (snd (makeRequest rt url options w))
    = (log w ++ call_events rt url options w ++ rest)%list /\
    In (EvClearTimeout (timer_of w)) rest /\
    (forall e, In e rest -> is_fetch e = false) /\
    (forall id d, ~ In (EvSetTimeout id d) rest).
Proof.
  executor_cases rt url options w;
    cbn [snd log after_call];
    eexists; (split; [reflexivity|]);
    unfold cancelled, cleared; simpl;
    (split; [tauto|split; [intros e He|intros id d He]]);
    intuition (subst; try reflexivity; try discriminate).
Qed.

(** A call leaves the armed timers as it found them. *)
Lemma makeRequest_armed (url : string) (options : RequestInit) (w : World) :
  armed (snd (makeRequest rt url options w)) = armed w.
Proof.
  executor_cases rt url options w; reflexivity.
Qed.

(** Where the status of an [APIError] thrown by the executor comes from. *)
Lemma makeRequest_status (url : string) (options : RequestInit) (w : World)
  (m : string) (s : N) :
  fst (makeRequest rt url options w) = Throw (APIError m s) ->
  (m = "Request timeout" /\ s = 408%N /\
   makeRequest rt url options w = timed_out rt url options w) \/
  (exists t r, issued rt url options w = Responds t r /\
               status r = s /\ ok r = false).
Proof.
  rewrite makeRequest_outcome. unfold executor_outcome.
  destruct (issued rt url options w) as [t r|t msg|];
    try destruct (timer_runs_first rt _ _);
    try (cbn [fst timed_out]; intros [= <- <-]; left; auto; fail);
    try (cbn [fst]; discriminate).
  unfold answered, answer.
  destruct (ok r) eqn:Hok;
    (destruct (response_body r) as [v| | |]; [destruct v| | |]);
    try match goal with |- context [ToString ?d] => destruct (ToString d) end;
    cbn [fst]; intros E; try discriminate;
    injection E as <- <-; right; exists t, r; auto.
Qed.

(** The executor ends in one of the ways [resolution] lists, if the
    response it gets (if any) is regular. *)
Lemma makeRequest_resolution (url : string) (options : RequestInit) (w : World) :
  (forall t r, issued rt url options w = Responds t r -> regular r = true) ->
  resolution rt w (makeRequest rt url options w).
Proof.
  intros Hreg. unfold resolution. rewrite makeRequest_outcome.
  unfold executor_outcome, timed_out.
  destruct (issued rt url options w) as [t r|t m|] eqn:Hb;
    try destruct (timer_runs_first rt _ _); cbn [fst snd]; try exact I.
  - specialize (Hreg t r eq_refl). unfold regular in Hreg.
    unfold answered, answer.
    destruct (ok r) eqn:Hok;
      destruct (response_body r) as [v|m|m|] eqn:Hbody;
      cbn [orb] in Hreg; try discriminate Hreg;
      cbn [fst snd log after_call].
    + exists url, options. eexists. exists t, r. rewrite Hb. auto.
    + exists url, options. eexists. split; [reflexivity|].
      right. exists t, r. rewrite Hb. auto.
    + exists url, options. eexists. split; [reflexivity|].
      right. exists t, r. rewrite Hb. auto.
    + destruct v; cbn [usable_error_body] in Hreg; try discriminate Hreg;
        try exact I.
      unfold or_else.
      destruct (lookup "detail" props) as [d|];
        [destruct (ToBoolean d); [destruct (ToString d); [|discriminate Hreg]|]|];
        exact I.
    + exact I.
    + exact I.
  - exists url, options. eexists. split; [reflexivity|].
    left. exists t. rewrite Hb. auto.
Qed.

(** [hundredths] is the quotient rounded to the nearest hundredth, halves
    upwards. *)
Lemma hundredths_rounds (num den : N) :
  (0 < den)%N ->
  (2 * den * hundredths num den <= 2 * 100 * num + den
   < 2 * den * (hundredths num den + 1))%N.
Proof.
  intros Hden. unfold hundredths.
  pose proof (N.div_mod (2 * 100 * num + den) (2 * den)) as Hdm.
  assert (Hlt : ((2 * 100 * num + den) mod (2 * den) < 2 * den)%N)
    by (apply N.mod_lt; lia).
  set (q := ((2 * 100 * num + den) / (2 * den))%N) in *.
  set (m := ((2 * 100 * num + den) mod (2 * den))%N) in *.
  nia.
Qed.

(** C8: whatever the transport does, [makeRequest] sets one timer and has
    cleared it by the time it ends: the events of the call contain the
    [clearTimeout] of the timer that was set, no other timer is set, and
    the armed timers are those armed before the call, none of which is
    the call's own. *)
Theorem makeRequest_clears_timer (url : string) (options : RequestInit) (w : World) :
  exists events,
    log (snd (makeRequest rt url options w))
    = (log w ++ EvSetTimeout (timer_of w) (timeout (API_CONFIG rt)) :: events)%list /\
    In (EvClearTimeout (timer_of w)) events /\
    (forall id d, ~ In (EvSetTimeout id d) events) /\
    armed (snd (makeRequest rt url options w)) = armed w /\
    (forall t, In t (armed (snd (makeRequest rt url options w))) ->
               timer_id t <> timer_of w).
Proof.
  destruct (makeRequest_log url options w) as (rest & Hlog & Hclear & _ & Hset).
  exists (EvFetch (request_url rt url) (with_signal options (controller_of w)) :: rest).
  rewrite makeRequest_armed. repeat split.
  - exact Hlog.
  - now right.
  - intros id d [E|Hin]; [discriminate|]. exact (Hset id d Hin).
  - intros t Hin. pose proof (fresh_above_ids w t Hin). unfold timer_of. lia.
Qed.

(** C2 (amended): a call the transport has not settled 60 000 ms after
    it was issued is aborted and ends in [APIError("Request timeout",
    408)]; an [APIError] of status 408 comes from that path or from a
    remote response whose own status is 408. *)
Theorem timeout_resolution (url : string) (options : RequestInit) (w : World) :
  let cancelled_run : Completion (Json number) * World :=
    (Throw (APIError "Request timeout" 408),
     after_call w (now w + 60000)
       (call_events rt url options w ++
        [EvTimerFired (timer_of w); EvAbort (controller_of w);
         EvClearTimeout (timer_of w)])) in
  (settles_within 60000 (issued rt url options w) = false ->
   makeRequest rt url options w = cancelled_run) /\
  (forall m,
     fst (makeRequest rt url options w) = Throw (APIError m 408) ->
     (m = "Request timeout" /\ makeRequest rt url options w = cancelled_run) \/
     (exists t r, issued rt url options w = Responds t r /\
                  status r = 408%N /\ ok r = false)).
Proof.
  intros cancelled_run. split.
  - intros Hs. now rewrite makeRequest_timed_out.
  - intros m Hm. destruct (makeRequest_status _ _ _ Hm) as [(Hmsg & _ & Hrun)|Hremote].
    + left. split; [exact Hmsg|exact Hrun].
    + now right.
Qed.

(** C5 (amended): take a response of failure status [s] that arrives in
    time.  If its body is delivered and, when it is JSON, is neither
    [null] nor an object whose truthy [detail] has no string form, the
    call ends in [APIError(message, s)]; the message is the string form
    of the body's [detail] when the body is a JSON object with a truthy
    [detail], and ["HTTP s"] when the body cannot be read as JSON, is
    JSON but not an object, or is an object with no [detail] or a falsy
    one.  If its body never ends, the call never settles. *)
Theorem remote_failure_translated (url : string) (options : RequestInit) (w : World)
  (t : N) (r : Response number) :
  issued rt url options w = Responds t r ->
  (t < 60000)%N ->
  ok r = false ->
  let fallback := "HTTP " ++ N_toString (status r) in
  let result := fst (makeRequest rt url options w) in
  (regular r = true ->
   exists message, result = Throw (APIError message (status r))) /\
  (response_body r = BodyStalls -> result = Pending) /\
  (forall props d message,
     response_body r = BodyJson (JObject props) ->
     lookup "detail" props = Some d -> ToBoolean d = true ->
     ToString d = Some message ->
     result = Throw (APIError message (status r))) /\
  (forall props d,
     response_body r = BodyJson (JObject props) ->
     lookup "detail" props = Some d -> ToBoolean d = false ->
     result = Throw (APIError fallback (status r))) /\
  (forall props,
     response_body r = BodyJson (JObject props) ->
     lookup "detail" props = None ->
     result = Throw (APIError fallback (status r))) /\
  (forall v,
     response_body r = BodyJson v ->
     match v with JNull | JObject _ => False | _ => True end ->
     result = Throw (APIError fallback (status r))) /\
  (forall m,
     response_body r = BodyMalformed m \/ response_body r = BodyBroken m ->
     result = Throw (APIError fallback (status r))).
Proof.
  intros Hb Ht Hok fallback result. subst result.
  rewrite (makeRequest_answered _ _ _ Hb Ht). unfold answered, answer.
  rewrite Hok. repeat split.
  - unfold regular. rewrite Hok. cbn [orb].
    destruct (response_body r) as [v| | |]; [destruct v| | |];
      cbn [usable_error_body]; intros Hreg; try discriminate Hreg;
      try (eexists; reflexivity).
    unfold or_else.
    destruct (lookup "detail" props) as [d|];
      [destruct (ToBoolean d); [destruct (ToString d); [|discriminate Hreg]|]|];
      eexists; reflexivity.
  - intros ->. reflexivity.
  - intros props d message -> Hd Htrue Hstr. unfold or_else.
    now rewrite Hd, Htrue, Hstr.
  - intros props d -> Hd Hfalse. unfold or_else. now rewrite Hd, Hfalse.
  - intros props -> Hd. unfold or_else. now rewrite Hd.
  - intros v -> Hv. destruct v; try contradiction; reflexivity.
  - intros m [-> | ->]; reflexivity.
Qed.

(** C6: for a success response that arrives in time, a body that decodes
    is the result of the call, unchanged, and a failure to read the body
    reaches the caller as the very exception [response.json()] threw,
    which is not an [APIError]. *)
Theorem success_body_passthrough (url : string) (options : RequestInit) (w : World)
  (t : N) (r : Response number) :
  issued rt url options w = Responds t r ->
  (t < 60000)%N ->
  ok r = true ->
  (forall v, response_body r = BodyJson v ->
             fst (makeRequest rt url options w) = Return v) /\
  (forall e w0, fst (json r w0) = Throw e ->
                fst (makeRequest rt url options w) = Throw e /\
                forall m s, e <> APIError m s).
Proof.
  intros Hb Ht Hok.
  rewrite (makeRequest_answered _ _ _ Hb Ht). unfold answered, answer.
  rewrite Hok. split.
  - intros v ->. reflexivity.
  - intros e w0. unfold json.
    destruct (response_body r); cbn; intros E; try discriminate;
      injection E as <-; (split; [reflexivity|discriminate]).
Qed.

(** Below a hundred, [two_digits] prints the tens digit and the units
    digit, as the characters of codes 48 to 57. *)
Lemma two_digits_digits (d : N) :
  (d < 100)%N ->
  two_digits d
  = String (ascii_of_N (48 + d / 10)) (String (ascii_of_N (48 + d mod 10)) "").
Proof.
  intros Hd.
  assert (Hall : forallb
            (fun k =>
               two_digits (N.of_nat k)
               =? String (ascii_of_N (48 + N.of_nat k / 10))
                    (String (ascii_of_N (48 + N.of_nat k mod 10)) ""))
            (seq 0 100) = true) by (vm_compute; reflexivity).
  rewrite forallb_forall in Hall.
  specialize (Hall (N.to_nat d)). rewrite N2Nat.id in Hall.
  apply String.eqb_eq, Hall, in_seq. lia.
Qed.

(** C9: [checkHealth] sends exactly one request, a bodiless GET to the
    health path, whatever the state it is called in, and a success
    response that arrives in time with a JSON body resolves to that
    decoded body. *)
Theorem checkHealth_probe (w : World) :
  (exists init rest,
     log (snd (checkHealth rt w))
     = (log w ++ [EvSetTimeout (timer_of w) 60000;
                  EvFetch (interpolate (NEXT_PUBLIC_API_URL rt) ++ "/health") init]
              ++ rest)%list /\
     request_method init = "GET" /\ body init = None /\
     (forall e, In e rest -> is_fetch e = false)) /\
  (forall t r v,
     issued rt "/health" no_options w = Responds t r ->
     (t < 60000)%N -> ok r = true -> response_body r = BodyJson v ->
     fst (checkHealth rt w) = Return v).
Proof.
  unfold checkHealth. split.
  - destruct (makeRequest_log "/health" no_options w) as (rest & Hlog & _ & Hnf & _).
    exists (with_signal no_options (controller_of w)), rest. auto.
  - intros t r v Hb Ht Hok Hbody.
    now apply (makeRequest_decoded _ _ _ Hb Ht Hok).
Qed.

(** C10: called with no file, [batchGenerateCaptions] raises no
    validation error of its own: it is the executor's call on a POST to
    the batch path whose form has no entry, and that request is sent. *)
Theorem empty_batch_is_submitted (w : World) :
  batchGenerateCaptions rt [] w
  = makeRequest rt "/batch-generate"
      {| method := Some "POST"; body := Some []; signal := None |} w /\
  exists rest,
    log (snd (batchGenerateCaptions rt [] w))
    = (log w ++ [EvSetTimeout (timer_of w) 60000;
                 EvFetch (interpolate (NEXT_PUBLIC_API_URL rt) ++ "/batch-generate")
                   {| method := Some "POST"; body := Some [];
                      signal := Some (controller_of w) |}]
             ++ rest)%list.
Proof.
  split; [reflexivity|].
  change (batchGenerateCaptions rt [] w)
    with (makeRequest rt "/batch-generate"
            {| method := Some "POST"; body := Some []; signal := None |} w).
  destruct (makeRequest_log "/batch-generate"
              {| method := Some "POST"; body := Some []; signal := None |} w)
    as (rest & Hlog & _).
  exists rest. exact Hlog.
Qed.

(** [forEach] appends the files in order under the one field name. *)
Lemma batch_form (files : list File) (fd : FormData) :
  fold_left (fun fd file => append fd "files" (FileValue file)) files fd
  = (fd ++ map (fun file => ("files", FileValue file)) files)%list.
Proof.
  revert fd. induction files as [|f r IH]; intros fd; simpl.
  - now rewrite app_nil_r.
  - rewrite IH. unfold append. now rewrite <- app_assoc.
Qed.

(** C4: more than three files are refused with [APIError("Max 3 files
    allowed", 400)] and the world is left as it was (no timer, no
    request); up to three files, whatever they are, are all sent under
    the field [files] in one POST to the batch path, and an [APIError]
    of status 400 can then only repeat the status of the remote
    response. *)
Theorem batch_cardinality (files : list File) (w : World) :
  (3 < List.length files ->
   batchGenerateCaptions rt files w
   = (Throw (APIError "Max 3 files allowed" 400), w)) /\
  (List.length files <= 3 ->
   let request :=
     {| method := Some "POST";
        body := Some (map (fun file => ("files", FileValue file)) files);
        signal := None |} in
   batchGenerateCaptions rt files w = makeRequest rt "/batch-generate" request w /\
   (exists rest,
      log (snd (batchGenerateCaptions rt files w))
      = (log w ++ call_events rt "/batch-generate" request w ++ rest)%list) /\
   (forall m,
      fst (batchGenerateCaptions rt files w) = Throw (APIError m 400) ->
      exists t r, issued rt "/batch-generate" request w = Responds t r /\
                  status r = 400%N)).
Proof.
  unfold batchGenerateCaptions. cbn [maxBatchSize API_CONFIG]. split.
  - intros Hlen. destruct (N.ltb_spec 3 (N.of_nat (List.length files))); [reflexivity|lia].
  - intros Hlen.
    destruct (N.ltb_spec 3 (N.of_nat (List.length files))); [lia|].
    rewrite batch_form. cbn [app]. split; [reflexivity|split].
    + match goal with
      | |- context [makeRequest rt ?u ?o w] =>
          destruct (makeRequest_log u o w) as (rest & Hlog & _)
      end.
      now exists rest.
    + intros m Hm. destruct (makeRequest_status _ _ _ Hm) as [(_ & E & _)|(t & r & Hb & Hs & _)].
      * discriminate.
      * now exists t, r.
Qed.

(** C3: a file larger than 10 MiB or whose declared type does not begin
    with [image/] is refused with status 400 before anything else
    happens (the world is unchanged: no timer, no request).  The message
    is the size violation, the type violation, or both joined by a comma
    and a space.  The size violation carries the text [10MB] and the
    size in MB to two decimal places: with [n] the size in hundredths of
    a MiB, rounded to the nearest, it is the decimal numeral of
    [n / 100], a point, the tens digit and the units digit of
    [n mod 100]. *)
Theorem generateCaption_rejects (file : File) (options : Options number) (w : World) :
  (10 * 1024 * 1024 < size file)%N \/ String.prefix "image/" (type file) = false ->
  let n := hundredths (size file) (1024 * 1024) in
  let shown :=
    NilZero.string_of_uint (N.to_uint (n / 100)) ++ "." ++
    String (ascii_of_N (48 + (n mod 100) / 10))
      (String (ascii_of_N (48 + (n mod 100) mod 10)) "") in
  let size_message := "File too large (" ++ shown ++ "MB). Max: 10MB" in
  let type_message := "File must be an image" in
  (2 * (1024 * 1024) * n <= 2 * 100 * size file + 1024 * 1024
   < 2 * (1024 * 1024) * (n + 1))%N /\
  generateCaption rt file options w
  = (Throw (APIError
       (if (10 * 1024 * 1024 <? size file)%N then
          if String.prefix "image/" (type file) then size_message
          else size_message ++ ", " ++ type_message
        else type_message) 400), w).
Proof.
  intros Hbad n shown size_message type_message. split.
  - apply hundredths_rounds. lia.
  - assert (Hshown : toFixed2 (size file) (1024 * 1024) = shown).
    { unfold toFixed2, N_toString. fold n.
      rewrite two_digits_digits by (apply N.mod_lt; discriminate).
      reflexivity. }
    unfold generateCaption, validateFile, startsWith, push, throw.
    cbn [maxFileSize API_CONFIG]. rewrite Hshown.
    destruct (N.ltb_spec (10 * 1024 * 1024) (size file)) as [Hbig|Hsmall];
      destruct (String.prefix "image/" (type file)) eqn:Hpre; cbn [negb app];
      try reflexivity.
    destruct Hbad as [Hlarge|Hno]; [lia|discriminate].
Qed.

(** C7 (amended): for a file that passes validation, [generateCaption]
    is the executor's call on a POST to the caption path whose form
    holds the file under [file], the method under [method] exactly when
    the option is a non-empty string, and the printed beam width under
    [beam_width] exactly when the option is a truthy number (neither
    zero nor [NaN]), and nothing else. *)
Theorem generateCaption_request (file : File) (options : Options number) (w : World) :
  (size file <= 10 * 1024 * 1024)%N ->
  String.prefix "image/" (type file) = true ->
  exists fd : FormData,
    generateCaption rt file options w
    = makeRequest rt "/generate-caption"
        {| method := Some "POST"; body := Some fd; signal := None |} w /\
    (exists rest,
       log (snd (generateCaption rt file options w))
       = (log w ++ [EvSetTimeout (timer_of w) 60000;
                    EvFetch (interpolate (NEXT_PUBLIC_API_URL rt) ++ "/generate-caption")
                      {| method := Some "POST"; body := Some fd;
                         signal := Some (controller_of w) |}]
                ++ rest)%list) /\
    entries "file" fd = [FileValue file] /\
    entries "method" fd
    = match opt_method options with
      | Some m => if m =? "" then [] else [StringValue m]
      | None => []
      end /\
    entries "beam_width" fd
    = match opt_beamWidth options with
      | Some bw => if Number_toBoolean bw then [StringValue (Number_toString bw)] else []
      | None => []
      end /\
    (forall e, In e fd ->
               fst e = "file" \/ fst e = "method" \/ fst e = "beam_width").
Proof.
  intros Hsize Htype.
  unfold generateCaption, validateFile, startsWith, push.
  cbn [maxFileSize API_CONFIG].
  destruct (N.ltb_spec (10 * 1024 * 1024) (size file)) as [Hbig|_]; [lia|].
  rewrite Htype. cbn [negb List.length Nat.ltb Nat.leb].
  eexists. split; [reflexivity|]. split.
  - match goal with
    | |- context [makeRequest rt ?u ?o w] =>
        destruct (makeRequest_log u o w) as (rest & Hlog & _)
    end.
    exists rest. exact Hlog.
  - destruct (opt_method options) as [m|];
      [destruct (String.eqb_spec m "") as [Hm|Hm]; cbn [negb]|];
      (destruct (opt_beamWidth options) as [bw|];
         [destruct (Number_toBoolean bw)|]);
      unfold entries, append; cbn;
      repeat split; try reflexivity;
      intros e He; cbn in He; intuition (subst; cbn; auto).
Qed.

(** C1 (amended): provided the body of every response is delivered and
    every JSON body of a failure response is usable (not [null], and
    without a truthy [detail] that has no string form), each public
    operation ends in exactly one way: with the decoded payload of a
    success response, with an [APIError], or with an exception of the
    run time passed on as it was thrown, the last only when the network
    fails the call or the body of a success response cannot be read.  It
    never stays pending. *)
Theorem operations_resolve :
  (forall url init t r, transport rt url init = Responds t r -> regular r = true) ->
  (forall file options w, resolution rt w (generateCaption rt file options w)) /\
  (forall files w, resolution rt w (batchGenerateCaptions rt files w)) /\
  (forall w, resolution rt w (checkHealth rt w)).
Proof.
  intros Hreg.
  assert (Hexec : forall url options w, resolution rt w (makeRequest rt url options w)).
  { intros url options w. apply makeRequest_resolution.
    intros t r Hb. exact (Hreg _ _ _ _ Hb). }
  repeat split.
  - intros file options w. unfold generateCaption.
    destruct (0 <? List.length (validateFile rt file))%nat; [exact I|apply Hexec].
  - intros files w. unfold batchGenerateCaptions.
    destruct (_ <? _)%N; [exact I|apply Hexec].
  - intros w. apply Hexec.
Qed.

End GatewayFacts.

(** ** Concrete runs *)

(** The three operations against a healthy service end as the theorem
    for C1 says. *)
Lemma operations_resolve_healthy :
  resolution (runtime_with healthy) idle
    (generateCaption (runtime_with healthy) sample_png
       {| opt_method := Some "beam_search"; opt_beamWidth := Some 3%Z |} idle) /\
  resolution (runtime_with healthy) idle
    (batchGenerateCaptions (runtime_with healthy) [sample_png] idle) /\
  resolution (runtime_with healthy) idle (checkHealth (runtime_with healthy) idle).
Proof.
  assert (Hreg : forall url init t r,
            transport (runtime_with healthy) url init = Responds t r ->
            regular r = true).
  { intros url init t r E. injection E as _ <-. reflexivity. }
  destruct (operations_resolve (runtime_with healthy) Hreg) as (Hg & Hb & Hh).
  repeat split; [apply Hg|apply Hb|apply Hh].
Defined.

(** C1 fails on the code: when the network fails the call, each of the
    three operations hands the caller the transport's [TypeError] itself,
    which is neither a payload nor an [APIError], although no response,
    malformed or not, was ever received. *)
Lemma network_fault_reaches_caller :
  transport (runtime_with offline) "http://localhost:8000/health"
    {| method := None; body := None; signal := Some 1 |}
  = Fails 5 "Failed to fetch" /\
  fst (checkHealth (runtime_with offline) idle)
  = Throw (Native TypeError "Failed to fetch") /\
  fst (generateCaption (runtime_with offline) sample_png
         {| opt_method := None; opt_beamWidth := None |} idle)
  = Throw (Native TypeError "Failed to fetch") /\
  fst (batchGenerateCaptions (runtime_with offline) [sample_png] idle)
  = Throw (Native TypeError "Failed to fetch").
Proof. repeat split. Qed.

(** A call that is still unsettled after 75 s is cancelled at 60 s; a
    remote 408 is recognised as the other source of that status. *)
Lemma timeout_resolution_slow :
  makeRequest (runtime_with slow) "/health" no_options idle
  = (Throw (APIError "Request timeout" 408),
     {| now := 60000; armed := []; next_id := 3;
        log := [EvSetTimeout 2 60000;
                EvFetch "http://localhost:8000/health"
                  {| method := None; body := None; signal := Some 1 |};
                EvTimerFired 2; EvAbort 1; EvClearTimeout 2] |}) /\
  (exists t r,
     issued (runtime_with remote_timeout) "/health" no_options idle = Responds t r /\
     status r = 408%N /\ ok r = false).
Proof.
  split.
  - apply (proj1 (timeout_resolution (runtime_with slow) "/health" no_options idle)).
    reflexivity.
  - destruct (proj2 (timeout_resolution (runtime_with remote_timeout) "/health"
                       no_options idle) "HTTP 408" eq_refl) as [[E _]|Hremote].
    + discriminate E.
    + exact Hremote.
Defined.

(** C2 fails on the code: a remote answer of status 408 that arrives
    after 10 ms ends the call in an [APIError] of status 408 although no
    timer fired and nothing was aborted. *)
Lemma remote_408_without_timeout :
  settles_within 60000 remote_timeout = true /\
  fst (checkHealth (runtime_with remote_timeout) idle)
  = Throw (APIError "HTTP 408" 408) /\
  log (snd (checkHealth (runtime_with remote_timeout) idle))
  = [EvSetTimeout 2 60000;
     EvFetch "http://localhost:8000/health"
       {| method := None; body := None; signal := Some 1 |};
     EvClearTimeout 2; EvClearTimeout 2] /\
  existsb is_abort (log (snd (checkHealth (runtime_with remote_timeout) idle))) = false.
Proof. repeat split. Qed.

(** The two examples of the specification: a 500 with a [detail], and a
    503 whose body is not JSON; a 422 with a list of findings is an
    [APIError] of status 422 as well. *)
Lemma remote_failure_examples :
  fst (makeRequest (runtime_with model_unavailable) "/generate-caption" no_options idle)
  = Throw (APIError "model unavailable" 500) /\
  fst (makeRequest (runtime_with unavailable) "/generate-caption" no_options idle)
  = Throw (APIError "HTTP 503" 503) /\
  (exists message,
     fst (makeRequest (runtime_with validation_failure) "/generate-caption"
            no_options idle)
     = Throw (APIError message 422)).
Proof.
  split; [|split].
  - apply (proj1 (proj2 (proj2
             (remote_failure_translated (runtime_with model_unavailable)
                "/generate-caption" no_options idle
                (t := 10) (r := {| status := 500;
                     response_body :=
                       BodyJson (JObject [("detail", JString "model unavailable")]) |})
                eq_refl eq_refl eq_refl)))
             [("detail", JString "model unavailable")] (JString "model unavailable")
             "model unavailable");
      reflexivity.
  - apply (proj2 (proj2 (proj2 (proj2 (proj2 (proj2
             (remote_failure_translated (runtime_with unavailable)
                "/generate-caption" no_options idle
                (t := 10) (r := {| status := 503;
                     response_body := BodyMalformed "Unexpected token '<'" |})
                eq_refl eq_refl eq_refl))))))
             "Unexpected token '<'").
    left. reflexivity.
  - apply (proj1
             (remote_failure_translated (runtime_with validation_failure)
                "/generate-caption" no_options idle (t := 10)
                (r := {| status := 422;
                         response_body :=
                           BodyJson (JObject [("detail",
                             JArray [JObject [("msg", JString "field required")];
                                     JObject [("msg",
                                       JString "value is not a valid integer")]])]) |})
                eq_refl eq_refl eq_refl)).
    reflexivity.
Defined.

(** C5 fails on the code: the body [{"detail": ""}] contains the field,
    whose string value is the empty string, yet the message is the
    fallback. *)
Lemma empty_detail_falls_back :
  issued (runtime_with empty_detail) "/health" no_options idle
  = Responds 10 {| status := 500;
                   response_body := BodyJson (JObject [("detail", JString "")]) |} /\
  lookup "detail" [("detail", JString (number := Z) "")] = Some (JString "") /\
  ToString (JString (number := Z) "") = Some "" /\
  fst (checkHealth (runtime_with empty_detail) idle) = Throw (APIError "HTTP 500" 500).
Proof. repeat split. Qed.

(** A failure response whose body is the JSON text [null] escapes as a
    [TypeError]: reading [detail] from [null] throws. *)
Example null_error_body_throws :
  fst (checkHealth (runtime_with null_error_body) idle)
  = Throw (Native TypeError "Cannot read properties of null (reading 'detail')").
Proof. reflexivity. Qed.

(** So does a failure response whose [detail] is an object with an
    entry [toString]: building the error message throws. *)
Example unprintable_detail_throws :
  fst (checkHealth (runtime_with unprintable_detail) idle)
  = Throw (Native TypeError "Cannot convert object to primitive value").
Proof. reflexivity. Qed.

(** The timer no longer guards the body: a success response whose body
    never ends leaves the call pending, with its timer cleared. *)
Example stalled_body_pending :
  checkHealth (runtime_with stalled_success) idle
  = (Pending,
     {| now := 10; armed := []; next_id := 3;
        log := [EvSetTimeout 2 60000;
                EvFetch "http://localhost:8000/health"
                  {| method := None; body := None; signal := Some 1 |};
                EvClearTimeout 2] |}).
Proof. reflexivity. Qed.

(** A decoded success body and an undecodable one. *)
Lemma success_body_examples :
  fst (makeRequest (runtime_with healthy) "/health" no_options idle)
  = Return (JObject [("status", JString "ok")]) /\
  fst (makeRequest (runtime_with garbled_success) "/health" no_options idle)
  = Throw (Native SyntaxError "Unexpected end of JSON input").
Proof.
  split.
  - apply (proj1 (success_body_passthrough (runtime_with healthy) "/health"
                    no_options idle
                    (t := 20) (r := {| status := 200;
                         response_body := BodyJson (JObject [("status", JString "ok")]) |})
                    eq_refl eq_refl eq_refl)).
    reflexivity.
  - apply (proj2 (success_body_passthrough (runtime_with garbled_success) "/health"
                    no_options idle
                    (t := 10) (r := {| status := 200;
                         response_body := BodyMalformed "Unexpected end of JSON input" |})
                    eq_refl eq_refl eq_refl)
             (Native SyntaxError "Unexpected end of JSON input") idle).
    reflexivity.
Defined.

(** The health probe of the specification: status 200, body
    [{"status": "ok"}]. *)
Lemma checkHealth_ok :
  fst (checkHealth (runtime_with healthy) idle)
  = Return (JObject [("status", JString "ok")]).
Proof.
  apply (proj2 (checkHealth_probe (runtime_with healthy) idle) 20%N
           {| status := 200;
              response_body := BodyJson (JObject [("status", JString "ok")]) |});
    reflexivity.
Defined.

(** Four files are refused, three are sent. *)
Lemma batch_cardinality_examples :
  batchGenerateCaptions (runtime_with healthy)
    [sample_png; sample_scan; sample_png; sample_png] idle
  = (Throw (APIError "Max 3 files allowed" 400), idle) /\
  batchGenerateCaptions (runtime_with healthy) [sample_png; sample_scan; sample_png] idle
  = makeRequest (runtime_with healthy) "/batch-generate"
      {| method := Some "POST";
         body := Some [("files", FileValue sample_png);
                       ("files", FileValue sample_scan);
                       ("files", FileValue sample_png)];
         signal := None |} idle.
Proof.
  split.
  - apply (proj1 (batch_cardinality (runtime_with healthy)
                    [sample_png; sample_scan; sample_png; sample_png] idle)).
    simpl. lia.
  - apply (proj2 (batch_cardinality (runtime_with healthy)
                    [sample_png; sample_scan; sample_png] idle)).
    simpl. lia.
Defined.

(** A 15 MiB PDF violates both constraints; a PNG of 11 000 000 bytes is
    10.49 MiB. *)
Lemma generateCaption_rejects_scan :
  generateCaption (runtime_with healthy) sample_scan
    {| opt_method := None; opt_beamWidth := None |} idle
  = (Throw (APIError "File too large (15.00MB). Max: 10MB, File must be an image" 400),
     idle) /\
  generateCaption (runtime_with healthy)
    {| file_name := "photo.png"; size := 11000000; type := "image/png" |}
    {| opt_method := None; opt_beamWidth := None |} idle
  = (Throw (APIError "File too large (10.49MB). Max: 10MB" 400), idle).
Proof.
  split.
  - apply (proj2 (generateCaption_rejects (runtime_with healthy) sample_scan
                    {| opt_method := None; opt_beamWidth := None |} idle
                    (or_introl eq_refl))).
  - apply (proj2 (generateCaption_rejects (runtime_with healthy)
                    {| file_name := "photo.png"; size := 11000000; type := "image/png" |}
                    {| opt_method := None; opt_beamWidth := None |} idle
                    (or_introl eq_refl))).
Defined.

(** A small PNG with both options. *)
Lemma generateCaption_request_png :
  exists fd : FormData,
    generateCaption (runtime_with healthy) sample_png
      {| opt_method := Some "beam_search"; opt_beamWidth := Some 3%Z |} idle
    = makeRequest (runtime_with healthy) "/generate-caption"
        {| method := Some "POST"; body := Some fd; signal := None |} idle /\
    entries "file" fd = [FileValue sample_png] /\
    entries "method" fd = [StringValue "beam_search"] /\
    entries "beam_width" fd = [StringValue "3"].
Proof.
  destruct (generateCaption_request (runtime_with healthy) sample_png
              {| opt_method := Some "beam_search"; opt_beamWidth := Some 3%Z |} idle)
    as (fd & Hrun & _ & Hfile & Hmethod & Hbeam & _).
  - discriminate.
  - reflexivity.
  - exists fd. repeat split; assumption.
Defined.

(** C7 fails on the code: a beam width of zero and an empty method are
    supplied, and neither field is in the form that is sent. *)
Lemma zero_beam_width_is_dropped :
  log (snd (generateCaption (runtime_with healthy) sample_png
              {| opt_method := Some ""; opt_beamWidth := Some 0%Z |} idle))
  = [EvSetTimeout 2 60000;
     EvFetch "http://localhost:8000/generate-caption"
       {| method := Some "POST";
          body := Some [("file", FileValue sample_png)];
          signal := Some 1 |};
     EvClearTimeout 2].
Proof. reflexivity. Qed.

(** ** More about the executor and the validator *)

Section ExecutorCoverage.

Context (number : Type) `{JsNumber number}.
Variable rt : Runtime number.

(** The race depends on the delays only, not on when the call starts. *)
Lemma timer_runs_first_shift (start due at_ : N) :
  timer_runs_first rt (start + due) (start + at_) = timer_runs_first rt due at_.
Proof.
  unfold timer_runs_first.
  destruct (N.eqb_spec (start + due) (start + at_)), (N.eqb_spec due at_); try lia;
    try reflexivity.
  destruct (N.ltb_spec (start + due) (start + at_)), (N.ltb_spec due at_);
    try lia; reflexivity.
Qed.

(** A settlement that beats the timer came no later than the deadline. *)
Lemma beats_timer_in_time (start t : N) :
  timer_runs_first rt (start + timeout (API_CONFIG rt)) (start + t) = false ->
  (t <= timeout (API_CONFIG rt))%N.
Proof.
  unfold timer_runs_first.
  destruct (N.eqb_spec (start + timeout (API_CONFIG rt)) (start + t)) as [E|_];
    [lia|].
  intros Hlt. apply N.ltb_ge in Hlt. lia.
Qed.

Lemma fst_answered (url : string) (options : RequestInit) (w : World) (at_ : N)
  (c : Completion (Json number)) :
  fst (answered rt url options w at_ c) = c.
Proof. destruct c; reflexivity. Qed.

(** A response leaves the call pending exactly when its body stalls. *)
Lemma answer_pending (r : Response number) :
  answer r = Pending <-> response_body r = BodyStalls.
Proof.
  unfold answer.
  destruct (ok r); (destruct (response_body r) as [v| | |]; [destruct v| | |]);
    try match goal with |- context [ToString ?d] => destruct (ToString d) end;
    split; intros E; try discriminate; reflexivity.
Qed.

(** A response yields a payload exactly when it is a success with a JSON
    body, and the payload is that body. *)
Lemma answer_return (r : Response number) (v : Json number) :
  answer r = Return v <-> ok r = true /\ response_body r = BodyJson v.
Proof.
  unfold answer.
  destruct (ok r); (destruct (response_body r) as [v'| | |]; [destruct v'| | |]);
    try match goal with |- context [ToString ?d] => destruct (ToString d) end;
    split; try (intros [E1 E2]); try (intros E); try discriminate;
    try (injection E as <-; auto); try (injection E2 as <-; reflexivity).
Qed.

(** A failure response whose body does not stall ends in an exception. *)
Lemma answer_failure (r : Response number) :
  ok r = false -> response_body r <> BodyStalls -> exists e, answer r = Throw e.
Proof.
  intros Hok Hbody. unfold answer. rewrite Hok.
  destruct (response_body r) as [v| | |]; [destruct v| | |];
    try match goal with |- context [ToString ?d] => destruct (ToString d) end;
    try (eexists; reflexivity). now contradiction Hbody.
Qed.

(** A valid file goes to the executor. *)
Lemma generateCaption_valid (file : File) (options : Options number) (w : World) :
  validateFile rt file = [] ->
  exists fd : FormData,
    generateCaption rt file options w
    = makeRequest rt "/generate-caption"
        {| method := Some "POST"; body := Some fd; signal := None |} w.
Proof.
  intros Hvalid. unfold generateCaption. rewrite Hvalid. cbn [List.length Nat.ltb Nat.leb].
  eexists. reflexivity.
Qed.

(** An invalid file is refused on the spot. *)
Lemma generateCaption_invalid (file : File) (options : Options number) (w : World) :
  validateFile rt file <> [] ->
  generateCaption rt file options w
  = (Throw (APIError (String.concat ", " (validateFile rt file)) 400), w).
Proof.
  intros Hbad. unfold generateCaption.
  destruct (validateFile rt file) as [|x l]; [contradiction|reflexivity].
Qed.

(** X1: [validateFile] returns no message exactly for a file of at most
    10 MiB whose declared type begins with [image/], and never more than
    two messages. *)
Theorem validateFile_accepts_iff (file : File) :
  (validateFile rt file = [] <->
   (size file <= 10 * 1024 * 1024)%N /\ String.prefix "image/" (type file) = true) /\
  List.length (validateFile rt file) <= 2.
Proof.
  unfold validateFile, startsWith, push. cbn [maxFileSize API_CONFIG].
  destruct (N.ltb_spec (10 * 1024 * 1024) (size file));
    destruct (String.prefix "image/" (type file)); cbn [negb app List.length];
    (split; [split; [intros E|intros [Hs Ht]]|]);
    try discriminate; try lia; try reflexivity; try (split; [lia|reflexivity]).
Qed.

(** X2: [generateCaption] leaves the world untouched (no timer, no
    request) exactly when the file fails validation; for a valid file
    the first things that happen are that the timer is set for 60 000 ms
    and that one POST to the caption path is sent, carrying the file
    first in its form. *)
Theorem generateCaption_untouched_iff_invalid
  (file : File) (options : Options number) (w : World) :
  (snd (generateCaption rt file options w) = w <-> validateFile rt file <> []) /\
  (validateFile rt file = [] ->
   exists fields rest,
     log (snd (generateCaption rt file options w))
     = (log w ++
        [EvSetTimeout (timer_of w) 60000;
         EvFetch (interpolate (NEXT_PUBLIC_API_URL rt) ++ "/generate-caption")
           {| method := Some "POST";
              body := Some (("file", FileValue file) :: fields);
              signal := Some (controller_of w) |}]
        ++ rest)%list /\
     (forall e, In e rest -> is_fetch e = false) /\
     (forall id d, ~ In (EvSetTimeout id d) rest)).
Proof.
  split; [split|].
  - intros Hsame Hvalid.
    destruct (generateCaption_valid file options w Hvalid) as (fd & Hrun).
    rewrite Hrun in Hsame.
    destruct (makeRequest_log rt "/generate-caption"
                {| method := Some "POST"; body := Some fd; signal := None |} w)
      as (rest & Hlog & _).
    rewrite Hsame in Hlog. apply (f_equal (@List.length Event)) in Hlog.
    rewrite !length_app in Hlog. cbn [List.length call_events] in Hlog. lia.
  - intros Hbad. now rewrite generateCaption_invalid.
  - intros Hvalid. unfold generateCaption. rewrite Hvalid.
    cbn [List.length Nat.ltb Nat.leb]. unfold append at 3. cbn [app].
    match goal with
    | |- context [makeRequest rt ?u {| method := _; body := Some ?fd; signal := _ |} w] =>
        destruct (makeRequest_log rt u
                    {| method := Some "POST"; body := Some fd; signal := None |} w)
          as (rest & Hlog & _ & Hnf & Hset);
        assert (Hfd : exists fields, fd = ("file", FileValue file) :: fields)
    end.
    { destruct (opt_method options) as [m|]; [destruct (negb (m =? ""))|];
        (destruct (opt_beamWidth options) as [bw|];
           [destruct (Number_toBoolean bw)|]);
        unfold append; cbn [app]; eexists; reflexivity. }
    destruct Hfd as (fields & Hfd). exists fields, rest.
    rewrite <- Hfd. repeat split; assumption.
Qed.

(** X3: a valid image of more than 10 MiB but less than 10.005 MiB is
    refused with a message that shows its size as 10.00MB. *)
Theorem just_over_limit_reads_ten (file : File) :
  (10485760 < size file <= 10491002)%N ->
  String.prefix "image/" (type file) = true ->
  validateFile rt file = ["File too large (10.00MB). Max: 10MB"].
Proof.
  intros [Hlo Hhi] Htype.
  unfold validateFile, startsWith, push. cbn [maxFileSize API_CONFIG].
  destruct (N.ltb_spec (10 * 1024 * 1024) (size file)); [|lia].
  rewrite Htype. cbn [negb app].
  assert (Hn : hundredths (size file) (1024 * 1024) = 1000%N).
  { unfold hundredths. symmetry.
    apply N.div_unique with (r := (2 * 100 * size file + 1024 * 1024
                                   - 2 * (1024 * 1024) * 1000)%N); lia. }
  unfold toFixed2. rewrite Hn. reflexivity.
Qed.

(** X4: for two files over 10 MiB, the second at least as large as the
    first, the first message of [validateFile] is the size violation,
    whose numeral is the size in hundredths of a MiB (rounded to the
    nearest) written with two decimals; that number is never below
    10.00, and the larger file never shows the smaller number. *)
Theorem oversize_shown_at_least_ten (file1 file2 : File) :
  (10 * 1024 * 1024 < size file1)%N ->
  (size file1 <= size file2)%N ->
  let text := fun n : N =>
    "File too large (" ++
    (NilZero.string_of_uint (N.to_uint (n / 100)) ++ "." ++
     String (ascii_of_N (48 + (n mod 100) / 10))
       (String (ascii_of_N (48 + (n mod 100) mod 10)) "")) ++
    "MB). Max: 10MB" in
  let rounds := fun (n bytes : N) =>
    (2 * (1024 * 1024) * n <= 2 * 100 * bytes + 1024 * 1024
     < 2 * (1024 * 1024) * (n + 1))%N in
  exists n1 n2 rest1 rest2,
    validateFile rt file1 = text n1 :: rest1 /\
    validateFile rt file2 = text n2 :: rest2 /\
    rounds n1 (size file1) /\ rounds n2 (size file2) /\
    (1000 <= n1 <= n2)%N.
Proof.
  intros Hbig Hle text rounds.
  assert (Hshown : forall bytes,
            toFixed2 bytes (1024 * 1024)
            = NilZero.string_of_uint
                (N.to_uint (hundredths bytes (1024 * 1024) / 100)) ++ "." ++
              String (ascii_of_N (48 + (hundredths bytes (1024 * 1024) mod 100) / 10))
                (String (ascii_of_N
                           (48 + (hundredths bytes (1024 * 1024) mod 100) mod 10)) "")).
  { intros bytes. unfold toFixed2, N_toString.
    rewrite two_digits_digits by (apply N.mod_lt; discriminate). reflexivity. }
  exists (hundredths (size file1) (1024 * 1024)),
         (hundredths (size file2) (1024 * 1024)).
  unfold validateFile, startsWith, push. cbn [maxFileSize API_CONFIG].
  destruct (N.ltb_spec (10 * 1024 * 1024) (size file1)); [|lia].
  destruct (N.ltb_spec (10 * 1024 * 1024) (size file2)); [|lia].
  rewrite !Hshown. cbn [app].
  exists (if negb (String.prefix "image/" (type file1))
          then ["File must be an image"] else []),
         (if negb (String.prefix "image/" (type file2))
          then ["File must be an image"] else []).
  repeat split.
  - destruct (negb (String.prefix "image/" (type file1))); reflexivity.
  - destruct (negb (String.prefix "image/" (type file2))); reflexivity.
  - apply hundredths_rounds. lia.
  - apply hundredths_rounds. lia.
  - apply hundredths_rounds. lia.
  - apply hundredths_rounds. lia.
  - unfold hundredths. apply N.div_le_lower_bound; lia.
  - unfold hundredths. apply N.Div0.div_le_mono. lia.
Qed.

(** X5: when the network fails the call before the deadline, the caller
    gets the transport's [TypeError] itself, the timer has been cleared
    once and nothing was aborted. *)
Theorem network_fault_rethrown (url : string) (options : RequestInit) (w : World)
  (t : N) (m : string) :
  issued rt url options w = Fails t m ->
  (t < 60000)%N ->
  makeRequest rt url options w
  = (Throw (Native TypeError m),
     after_call w (now w + t)
       (call_events rt url options w ++ [EvClearTimeout (timer_of w)])).
Proof.
  intros Hb Ht. rewrite makeRequest_outcome. unfold executor_outcome.
  rewrite Hb, timer_loses by assumption. reflexivity.
Qed.

(** X6: a payload is returned only for a success response with a JSON
    body that arrived no later than the deadline; the payload is that
    body. *)
Theorem payload_only_from_success (url : string) (options : RequestInit) (w : World)
  (v : Json number) :
  fst (makeRequest rt url options w) = Return v ->
  exists t r,
    issued rt url options w = Responds t r /\ (t <= 60000)%N /\
    ok r = true /\ response_body r = BodyJson v.
Proof.
  rewrite makeRequest_outcome. unfold executor_outcome, timed_out.
  destruct (issued rt url options w) as [t r|t m|];
    try destruct (timer_runs_first rt _ _) eqn:Hrace; cbn [fst]; try discriminate.
  rewrite fst_answered. intros Hv. apply answer_return in Hv as [Hok Hbody].
  exists t, r. repeat split; try assumption.
  now apply (beats_timer_in_time (now w)).
Qed.

(** X7: the call stays pending exactly when a response beat the timer
    and its body never ends: the deadline does not cover the body. *)
Theorem pending_iff_stalled_body (url : string) (options : RequestInit) (w : World) :
  fst (makeRequest rt url options w) = Pending <->
  exists t r,
    issued rt url options w = Responds t r /\
    timer_runs_first rt (now w + 60000) (now w + t) = false /\
    response_body r = BodyStalls.
Proof.
  rewrite makeRequest_outcome. unfold executor_outcome, timed_out.
  cbn [timeout API_CONFIG].
  destruct (issued rt url options w) as [t r|t m|]; split;
    try destruct (timer_runs_first rt _ _) eqn:Hrace; cbn [fst];
    try discriminate;
    try (intros (t' & r' & E & Hr & _); try discriminate E;
         injection E as <- <-; congruence).
  - rewrite fst_answered. intros Hp. apply answer_pending in Hp.
    exists t, r. auto.
  - intros (t' & r' & E & _ & Hbody). injection E as <- <-.
    rewrite fst_answered. now apply answer_pending.
Qed.

(** X8: a signal supplied by the caller is overwritten: the call does the
    same whatever [options.signal] holds, and sends exactly one request,
    which carries the signal of the call's own controller. *)
Theorem caller_signal_ignored (url : string) (m : option string)
  (b : option FormData) (s1 s2 : option nat) (w : World) :
  makeRequest rt url {| method := m; body := b; signal := s1 |} w
  = makeRequest rt url {| method := m; body := b; signal := s2 |} w /\
  exists rest,
    log (snd (makeRequest rt url {| method := m; body := b; signal := s1 |} w))
    = (log w ++ [EvSetTimeout (timer_of w) 60000;
                 EvFetch (interpolate (NEXT_PUBLIC_API_URL rt) ++ url)
                   {| method := m; body := b; signal := Some (controller_of w) |}]
             ++ rest)%list /\
    (forall e, In e rest -> is_fetch e = false).
Proof.
  split; [reflexivity|].
  destruct (makeRequest_log rt url {| method := m; body := b; signal := s1 |} w)
    as (rest & Hlog & _ & Hnf & _).
  exists rest. split; assumption.
Qed.

(** The completion of a call does not depend on the world it starts in,
    if the transport does not look at the signal. *)
Lemma makeRequest_fst_world (url : string) (options : RequestInit) (w w' : World) :
  signal_blind rt ->
  fst (makeRequest rt url options w') = fst (makeRequest rt url options w).
Proof.
  intros Hblind. rewrite !makeRequest_outcome. unfold executor_outcome, issued.
  rewrite (Hblind (request_url rt url) options (controller_of w') (controller_of w)).
  destruct (transport rt _ _) as [t r|t m|]; rewrite ?timer_runs_first_shift;
    try destruct (timer_runs_first rt _ _); rewrite ?fst_answered; reflexivity.
Qed.

(** X9: against a transport that does not look at the signal, each
    operation completes in the same way from whatever state it is
    called, so calling it again repeats the first completion. *)
Theorem repeated_call_same_completion :
  signal_blind rt ->
  (forall file options w w',
     fst (generateCaption rt file options w') = fst (generateCaption rt file options w)) /\
  (forall files w w',
     fst (batchGenerateCaptions rt files w') = fst (batchGenerateCaptions rt files w)) /\
  (forall w w', fst (checkHealth rt w') = fst (checkHealth rt w)).
Proof.
  intros Hblind. repeat split.
  - intros file options w w'. unfold generateCaption.
    destruct (0 <? List.length (validateFile rt file))%nat;
      [reflexivity|now apply makeRequest_fst_world].
  - intros files w w'. unfold batchGenerateCaptions.
    destruct (_ <? _)%N; [reflexivity|now apply makeRequest_fst_world].
  - intros w w'. now apply makeRequest_fst_world.
Qed.

(** X11: a call the transport settles before the deadline is never
    aborted: after the request, the only events are [clearTimeout]s of
    the call's timer. *)
Theorem settled_early_never_aborted (url : string) (options : RequestInit)
  (w : World) (t : N) :
  (exists r, issued rt url options w = Responds t r) \/
  (exists m, issued rt url options w = Fails t m) ->
  (t < 60000)%N ->
  exists rest,
    log (snd (makeRequest rt url options w))
    = (log w ++ call_events rt url options w ++ rest)%list /\
    (forall e, In e rest -> e = EvClearTimeout (timer_of w)).
Proof.
  intros Hb Ht. rewrite makeRequest_outcome. unfold executor_outcome, answered.
  destruct Hb as [(r & ->)|(m & ->)]; rewrite timer_loses by assumption;
    try destruct (answer r) as [v|ex|];
    cbn [snd log after_call cleared app]; eexists; (split; [reflexivity|]);
    intros e He; cbn in He; intuition.
Qed.

(** X12: no operation ever fails with an [APIError] whose status is a
    success code (200 to 299). *)
Theorem error_status_never_success (m : string) (s : N) :
  (forall file options w,
     fst (generateCaption rt file options w) = Throw (APIError m s) ->
     (s < 200 \/ 299 < s)%N) /\
  (forall files w,
     fst (batchGenerateCaptions rt files w) = Throw (APIError m s) ->
     (s < 200 \/ 299 < s)%N) /\
  (forall w,
     fst (checkHealth rt w) = Throw (APIError m s) -> (s < 200 \/ 299 < s)%N).
Proof.
  assert (Hexec : forall url options w,
            fst (makeRequest rt url options w) = Throw (APIError m s) ->
            (s < 200 \/ 299 < s)%N).
  { intros url options w Hm.
    destruct (makeRequest_status _ _ _ _ Hm) as [(_ & -> & _)|(t & r & _ & <- & Hok)].
    - lia.
    - unfold ok in Hok. apply andb_false_iff in Hok as [Hlo|Hhi].
      + apply N.leb_gt in Hlo. lia.
      + apply N.leb_gt in Hhi. lia. }
  repeat split.
  - intros file options w. unfold generateCaption.
    destruct (0 <? List.length (validateFile rt file))%nat; [|apply Hexec].
    cbn. intros [= _ <-]. lia.
  - intros files w. unfold batchGenerateCaptions.
    destruct (_ <? _)%N; [|apply Hexec].
    cbn. intros [= _ <-]. lia.
  - intros w. apply Hexec.
Qed.

(** X21: when the base URL is not configured, the request still goes
    out, to the path prefixed with the text [undefined]. *)
Theorem unset_base_url_requests_undefined
  (url : string) (options : RequestInit) (w : World) :
  NEXT_PUBLIC_API_URL rt = None ->
  issued rt url options w
  = transport rt ("undefined" ++ url) (with_signal options (controller_of w)) /\
  exists rest,
    log (snd (makeRequest rt url options w))
    = (log w ++ [EvSetTimeout (timer_of w) 60000;
                 EvFetch ("undefined" ++ url) (with_signal options (controller_of w))]
             ++ rest)%list.
Proof.
  intros Hnone.
  destruct (makeRequest_log rt url options w) as (rest & Hlog & _).
  unfold issued, call_events, request_url in *. cbn [baseURL API_CONFIG timeout] in *.
  rewrite Hnone in *. cbn [interpolate] in *.
  split; [reflexivity|]. now exists rest.
Qed.

(** A list of plain objects prints as that many [[object Object]],
    separated by commas. *)
Lemma ToString_plain_objects (items : list (Json number)) :
  forallb plain_object items = true ->
  ToString (JArray items)
  = Some (String.concat "," (map (fun _ => "[object Object]") items)).
Proof.
  intros Hplain. cbn [ToString].
  match goal with
  | |- option_map _ (?each items) = _ =>
      assert (Heach : each items = Some (map (fun _ => "[object Object]") items))
  end.
  { induction items as [|x items IH]; [reflexivity|].
    cbn [forallb] in Hplain. apply andb_true_iff in Hplain as [Hx Hrest].
    rewrite (IH Hrest). destruct x; try discriminate Hx.
    cbn [plain_object] in Hx. cbn [ToString map].
    destruct (has_own "toString" props); [discriminate Hx|reflexivity]. }
  now rewrite Heach.
Qed.

(** X22: when a failure response carries as [detail] a list of plain
    objects (the shape of a validation report), the message of the
    resulting [APIError] is the text [[object Object]] once per entry,
    separated by commas; the content of the entries is lost. *)
Theorem detail_list_prints_object_Object
  (url : string) (options : RequestInit) (w : World) (t : N) (r : Response number)
  (props : list (string * Json number)) (items : list (Json number)) :
  issued rt url options w = Responds t r ->
  (t < 60000)%N ->
  ok r = false ->
  response_body r = BodyJson (JObject props) ->
  lookup "detail" props = Some (JArray items) ->
  forallb plain_object items = true ->
  fst (makeRequest rt url options w)
  = Throw (APIError (String.concat "," (map (fun _ => "[object Object]") items))
             (status r)).
Proof.
  intros Hb Ht Hok Hbody Hdetail Hplain.
  rewrite makeRequest_answered with (t := t) (r := r) by assumption.
  rewrite fst_answered.
  unfold answer. rewrite Hok, Hbody. unfold or_else. rewrite Hdetail.
  cbn [ToBoolean]. now rewrite (ToString_plain_objects items Hplain).
Qed.

End ExecutorCoverage.

(** ** The callers *)

Section CallerFacts.

Context (number : Type) `{JsNumber number}.
Variable rt : Runtime number.

(** What [setApiStatus] receives, by cases on how the probe ended. *)
Lemma Home_effect_cases (w : World) :
  fst (Home_effect rt w)
  = match fst (checkHealth rt w) with
    | Return JNull => Return (Some (JString "error"))
    | Return (JObject props) => Return (lookup "status" props)
    | Return _ => Return None
    | Throw _ => Return (Some (JString "error"))
    | Pending => Pending
    end.
Proof.
  unfold Home_effect, try_catch, bind.
  destruct (checkHealth rt w) as [[v|e|] w']; cbn [fst]; try reflexivity.
  destruct v; reflexivity.
Qed.

(** The probe throws when the network fails it, leaves it unsettled past
    the deadline, or answers with a failure status and a body that
    ends. *)
Lemma checkHealth_fails (w : World) :
  settles_within 60000 (issued rt "/health" no_options w) = false \/
  (exists t m, issued rt "/health" no_options w = Fails t m) \/
  (exists t r, issued rt "/health" no_options w = Responds t r /\
               ok r = false /\ response_body r <> BodyStalls) ->
  exists e, fst (checkHealth rt w) = Throw e.
Proof.
  unfold checkHealth. intros Hcase.
  destruct Hcase as [Hlate|[(t & m & Hb)|(t & r & Hb & Hok & Hbody)]].
  - rewrite makeRequest_timed_out by exact Hlate. eexists. reflexivity.
  - rewrite makeRequest_outcome. unfold executor_outcome. rewrite Hb.
    destruct (timer_runs_first rt _ _); eexists; reflexivity.
  - rewrite makeRequest_outcome. unfold executor_outcome. rewrite Hb.
    destruct (timer_runs_first rt _ _); [eexists; reflexivity|].
    rewrite fst_answered. now apply answer_failure.
Qed.

(** X13: once the mount effect of [Home] has run, the "Service
    Unavailable" banner is shown exactly when the probe threw, resolved
    to [null], or resolved to an object whose [status] is the string
    ['error']; while the probe is pending, and for every other payload,
    it is not shown. *)
Theorem unavailable_banner_iff (w : World) :
  shows_unavailable (apiStatus_after rt w) = true <->
  (exists e, fst (checkHealth rt w) = Throw e) \/
  fst (checkHealth rt w) = Return JNull \/
  (exists props, fst (checkHealth rt w) = Return (JObject props) /\
                 lookup "status" props = Some (JString "error")).
Proof.
  unfold apiStatus_after. rewrite Home_effect_cases.
  destruct (fst (checkHealth rt w)) as [v|e|]; [destruct v| |]; cbn; split;
    try discriminate; try (intros _; auto; fail);
    try (intros [[e' E]|[E|(p & E & _)]]; discriminate E);
    try (intros _; left; eexists; reflexivity).
  - unfold shows_unavailable.
    destruct (lookup "status" props) as [[| | |s| |]|] eqn:Hl; try discriminate.
    intros Hs. apply String.eqb_eq in Hs. subst s. right. right. now exists props.
  - intros [[e' E]|[E|(p & E & Hl)]]; try discriminate E.
    injection E as <-. now rewrite Hl.
Qed.

(** X14: when the network fails the probe, leaves it unsettled for more
    than 60 000 ms, or answers it with a failure status and a body that
    ends, the banner is shown. *)
Theorem failed_probe_shows_banner (w : World) :
  settles_within 60000 (issued rt "/health" no_options w) = false \/
  (exists t m, issued rt "/health" no_options w = Fails t m) \/
  (exists t r, issued rt "/health" no_options w = Responds t r /\
               ok r = false /\ response_body r <> BodyStalls) ->
  shows_unavailable (apiStatus_after rt w) = true.
Proof.
  intros Hcase. destruct (checkHealth_fails w Hcase) as (e & He).
  unfold apiStatus_after. rewrite Home_effect_cases, He. reflexivity.
Qed.

(** [handleSubmit] with an image selected, by cases on how
    [generateCaption] ended. *)
Lemma handleSubmit_cases (s : Upload number) (w : World) (image : File) :
  selectedImage s = Some image ->
  handleSubmit rt s w
  = let s1 := setLoading true s in
    let run := generateCaption rt image
                 {| opt_method := Some (ui_method s);
                    opt_beamWidth := Some (beamWidth s) |} w in
    match fst run with
    | Return result =>
        (Return tt, setLoading false (onCaptionGenerated result s1), snd run)
    | Throw error =>
        (Return tt, setLoading false (alert ("Error: " ++ exn_message error) s1),
         snd run)
    | Pending => (Pending, s1, snd run)
    end.
Proof.
  intros Himg. unfold handleSubmit. rewrite Himg. cbn [ui_method beamWidth setLoading].
  destruct (generateCaption rt image _ w) as [[v|e|] w']; reflexivity.
Qed.

(** X15: [handleSubmit] never rejects, and when it settles with an image
    selected the loading flag is off and the image still selected, so
    that the submit button is enabled again. *)
Theorem handleSubmit_settles_enabled (s : Upload number) (w : World) :
  (forall e, fst (fst (handleSubmit rt s w)) <> Throw e) /\
  (fst (fst (handleSubmit rt s w)) = Return tt ->
   selectedImage s <> None ->
   loading (snd (fst (handleSubmit rt s w))) = false /\
   selectedImage (snd (fst (handleSubmit rt s w))) = selectedImage s /\
   submit_disabled (snd (fst (handleSubmit rt s w))) = false).
Proof.
  destruct (selectedImage s) as [image|] eqn:Himg.
  - rewrite (handleSubmit_cases s w Himg). cbv zeta.
    destruct (fst (generateCaption rt image _ w)) as [v|e|];
      cbn [fst snd]; (split; [discriminate|]); intros Hret _; try discriminate Hret;
      unfold submit_disabled; cbn; now rewrite Himg.
  - unfold handleSubmit. rewrite Himg. cbn [fst snd].
    split; [discriminate|]. intros _ Hsel. now contradiction Hsel.
Qed.

(** X16: a submit that settles with an image selected notifies the user
    exactly once: either the payload of [generateCaption] is handed to
    [onCaptionGenerated] and no alert is raised, or one alert is raised,
    whose text is ["Error: "] followed by the message of the error, and
    the caption is left as it was. *)
Theorem handleSubmit_notifies_once (s : Upload number) (w : World) (image : File) :
  selectedImage s = Some image ->
  fst (fst (handleSubmit rt s w)) = Return tt ->
  let run := generateCaption rt image
               {| opt_method := Some (ui_method s);
                  opt_beamWidth := Some (beamWidth s) |} w in
  let s' := snd (fst (handleSubmit rt s w)) in
  (exists data, fst run = Return data /\
                captionData s' = Some data /\ alerts s' = alerts s) \/
  (exists error, fst run = Throw error /\
                 alerts s' = (alerts s ++ [("Error: " ++ exn_message error)%string])%list /\
                 captionData s' = captionData s).
Proof.
  intros Himg. rewrite (handleSubmit_cases s w Himg). cbv zeta.
  destruct (fst (generateCaption rt image _ w)) as [v|e|]; cbn [fst snd];
    intros Hret; try discriminate Hret.
  - left. exists v. auto.
  - right. exists e. auto.
Qed.

(** X17: submitting an image that fails validation raises one alert with
    all the violations, joined by a comma and a space, after ["Error: "],
    turns the loading flag off again and does not touch the network. *)
Theorem handleSubmit_invalid_image (s : Upload number) (w : World) (image : File) :
  selectedImage s = Some image ->
  validateFile rt image <> [] ->
  handleSubmit rt s w
  = (Return tt,
     setLoading false
       (alert ("Error: " ++ String.concat ", " (validateFile rt image)) s),
     w).
Proof.
  intros Himg Hbad. rewrite (handleSubmit_cases s w Himg). cbv zeta.
  rewrite generateCaption_invalid by assumption. reflexivity.
Qed.

(** X18: when the service answers in time but the body of its answer
    never ends, the submit of a valid image never settles: the loading
    flag stays on, the button stays disabled and no alert is raised. *)
Theorem handleSubmit_stalls (s : Upload number) (w : World) (image : File)
  (t : N) (r : Response number) :
  selectedImage s = Some image ->
  validateFile rt image = [] ->
  (forall url init, transport rt url init = Responds t r) ->
  (t < 60000)%N ->
  response_body r = BodyStalls ->
  fst (fst (handleSubmit rt s w)) = Pending /\
  loading (snd (fst (handleSubmit rt s w))) = true /\
  submit_disabled (snd (fst (handleSubmit rt s w))) = true /\
  alerts (snd (fst (handleSubmit rt s w))) = alerts s.
Proof.
  intros Himg Hvalid Hnet Ht Hbody.
  rewrite (handleSubmit_cases s w Himg). cbv zeta.
  destruct (generateCaption_valid rt image
              {| opt_method := Some (ui_method s); opt_beamWidth := Some (beamWidth s) |}
              w Hvalid) as (fd & ->).
  rewrite makeRequest_answered with (t := t) (r := r); [|apply Hnet|exact Ht].
  rewrite fst_answered.
  assert (Hp : answer r = Pending) by now apply answer_pending.
  rewrite Hp. cbn. auto.
Qed.

(** X19: when the service does not answer within 60 000 ms, the submit of
    a valid image settles at the deadline with the one alert
    ["Error: Request timeout"], the loading flag off and the caption
    unchanged. *)
Theorem handleSubmit_timeout (s : Upload number) (w : World) (image : File) :
  selectedImage s = Some image ->
  validateFile rt image = [] ->
  (forall url init, settles_within 60000 (transport rt url init) = false) ->
  fst (fst (handleSubmit rt s w)) = Return tt /\
  alerts (snd (fst (handleSubmit rt s w)))
  = (alerts s ++ ["Error: Request timeout"])%list /\
  loading (snd (fst (handleSubmit rt s w))) = false /\
  captionData (snd (fst (handleSubmit rt s w))) = captionData s /\
  now (snd (handleSubmit rt s w)) = (now w + 60000)%N.
Proof.
  intros Himg Hvalid Hnet.
  rewrite (handleSubmit_cases s w Himg). cbv zeta.
  destruct (generateCaption_valid rt image
              {| opt_method := Some (ui_method s); opt_beamWidth := Some (beamWidth s) |}
              w Hvalid) as (fd & ->).
  rewrite makeRequest_timed_out by apply Hnet. cbn. auto.
Qed.

(** X23: the request [handleSubmit] sends for a valid image carries the
    image, the selected method and the printed beam width, in that
    order, whenever the method is a non-empty string and the beam width
    is truthy, whichever method is selected. *)
Theorem handleSubmit_request_fields (s : Upload number) (w : World) (image : File) :
  selectedImage s = Some image ->
  validateFile rt image = [] ->
  ui_method s <> "" ->
  Number_toBoolean (beamWidth s) = true ->
  exists rest,
    log (snd (handleSubmit rt s w))
    = (log w ++ [EvSetTimeout (timer_of w) 60000;
                 EvFetch (interpolate (NEXT_PUBLIC_API_URL rt) ++ "/generate-caption")
                   {| method := Some "POST";
                      body := Some [("file", FileValue image);
                                    ("method", StringValue (ui_method s));
                                    ("beam_width",
                                     StringValue (Number_toString (beamWidth s)))];
                      signal := Some (controller_of w) |}]
             ++ rest)%list.
Proof.
  intros Himg Hvalid Hmethod Hbw.
  rewrite (handleSubmit_cases s w Himg). cbv zeta.
  assert (Hrun : generateCaption rt image
                   {| opt_method := Some (ui_method s);
                      opt_beamWidth := Some (beamWidth s) |} w
                 = makeRequest rt "/generate-caption"
                     {| method := Some "POST";
                        body := Some [("file", FileValue image);
                                      ("method", StringValue (ui_method s));
                                      ("beam_width",
                                       StringValue (Number_toString (beamWidth s)))];
                        signal := None |} w).
  { unfold generateCaption. rewrite Hvalid.
    cbn [List.length Nat.ltb Nat.leb opt_method opt_beamWidth].
    destruct (String.eqb_spec (ui_method s) "") as [E|_]; [contradiction|].
    rewrite Hbw. reflexivity. }
  rewrite Hrun.
  match goal with
  | |- context [makeRequest rt ?u ?o w] =>
      destruct (makeRequest_log rt u o w) as (rest & Hlog & _)
  end.
  exists rest.
  match goal with
  | |- context [fst ?run] => destruct (fst run)
  end; cbn [snd]; exact Hlog.
Qed.

End CallerFacts.

(** Upper-casing keeps underscores and makes none. *)
Lemma upper_underscore (c : ascii) :
  Ascii.eqb (upper c) "_" = Ascii.eqb c "_".
Proof.
  destruct c as [[] [] [] [] [] [] [] []]; vm_compute; reflexivity.
Qed.

Lemma toUpperCase_app (a b : string) :
  toUpperCase (a ++ b) = toUpperCase a ++ toUpperCase b.
Proof. induction a as [|c a IH]; simpl; [reflexivity|now rewrite IH]. Qed.

Lemma occurrences_toUpperCase (s : string) :
  occurrences "_" (toUpperCase s) = occurrences "_" s.
Proof.
  induction s as [|c s IH]; simpl; [reflexivity|].
  now rewrite upper_underscore, IH.
Qed.

Lemma replace_first_app (a b : string) :
  occurrences "_" a = 0 ->
  replace_first "_" " " (a ++ String "_" b) = a ++ String " " b.
Proof.
  induction a as [|c a IH]; simpl; [reflexivity|].
  destruct (Ascii.eqb c "_"); [discriminate|].
  intros Hocc. now rewrite IH.
Qed.

Lemma occurrences_app (c : ascii) (a b : string) :
  occurrences c (a ++ b) = occurrences c a + occurrences c b.
Proof. induction a as [|d a IH]; simpl; [reflexivity|rewrite IH; lia]. Qed.

Lemma length_toUpperCase (s : string) :
  String.length (toUpperCase s) = String.length s.
Proof. induction s as [|c s IH]; simpl; [reflexivity|now rewrite IH]. Qed.

Lemma length_append (a b : string) :
  String.length (a ++ b) = String.length a + String.length b.
Proof. induction a as [|c a IH]; simpl; [reflexivity|now rewrite IH]. Qed.

(** X20: in the method cell of [CaptionDisplay] only the first underscore
    of the method name becomes a space: for a name of ASCII characters
    made of a part without underscore, an underscore and a rest, the
    label is the two parts in upper case around a space, and every
    underscore of the rest is still there. *)
Theorem method_label_first_underscore_only (a b : string) :
  ascii_only (a ++ "_" ++ b) = true ->
  occurrences "_" a = 0 ->
  method_label (a ++ "_" ++ b) = toUpperCase a ++ " " ++ toUpperCase b /\
  occurrences "_" (method_label (a ++ "_" ++ b)) = occurrences "_" b /\
  String.length (method_label (a ++ "_" ++ b)) = String.length (a ++ "_" ++ b).
Proof.
  intros _ Hocc. unfold method_label.
  change ("_" ++ b) with (String "_" b).
  rewrite (replace_first_app a b Hocc), toUpperCase_app.
  change (toUpperCase (String " " b)) with (" " ++ toUpperCase b).
  repeat split.
  - rewrite occurrences_app, !occurrences_toUpperCase, Hocc.
    change (" " ++ toUpperCase b) with (String " " (toUpperCase b)).
    cbn [occurrences Ascii.eqb Bool.eqb]. now rewrite occurrences_toUpperCase.
  - rewrite !length_append, !length_toUpperCase. reflexivity.
Qed.

(** ** Concrete runs of the further properties *)

(** One byte over the limit. *)
Lemma just_over_limit_example :
  validateFile (runtime_with healthy) sample_just_over
  = ["File too large (10.00MB). Max: 10MB"].
Proof.
  apply (just_over_limit_reads_ten (runtime_with healthy) sample_just_over).
  - split; reflexivity || discriminate.
  - reflexivity.
Defined.

(** 11 000 000 bytes read 10.49, 15 MiB read 15.00. *)
Lemma oversize_shown_example :
  exists n1 n2 rest1 rest2,
    validateFile (runtime_with healthy)
      {| file_name := "photo.png"; size := 11000000; type := "image/png" |}
    = ("File too large (" ++
       (NilZero.string_of_uint (N.to_uint (n1 / 100)) ++ "." ++
        String (ascii_of_N (48 + (n1 mod 100) / 10))
          (String (ascii_of_N (48 + (n1 mod 100) mod 10)) "")) ++
       "MB). Max: 10MB") :: rest1 /\
    validateFile (runtime_with healthy) sample_scan
    = ("File too large (" ++
       (NilZero.string_of_uint (N.to_uint (n2 / 100)) ++ "." ++
        String (ascii_of_N (48 + (n2 mod 100) / 10))
          (String (ascii_of_N (48 + (n2 mod 100) mod 10)) "")) ++
       "MB). Max: 10MB") :: rest2 /\
    (2 * (1024 * 1024) * n1 <= 2 * 100 * 11000000 + 1024 * 1024
     < 2 * (1024 * 1024) * (n1 + 1))%N /\
    (2 * (1024 * 1024) * n2 <= 2 * 100 * 15728640 + 1024 * 1024
     < 2 * (1024 * 1024) * (n2 + 1))%N /\
    (1000 <= n1 <= n2)%N.
Proof.
  assert (Hle : (11000000 <= 15728640)%N) by discriminate.
  exact (oversize_shown_at_least_ten (runtime_with healthy)
           {| file_name := "photo.png"; size := 11000000; type := "image/png" |}
           sample_scan eq_refl Hle).
Defined.

(** A valid image sets the timer and goes out. *)
Lemma generateCaption_valid_example :
  exists fields rest,
    log (snd (generateCaption (runtime_with healthy) sample_png
                {| opt_method := None; opt_beamWidth := None |} idle))
    = (log idle ++
       [EvSetTimeout (timer_of idle) 60000;
        EvFetch "http://localhost:8000/generate-caption"
          {| method := Some "POST";
             body := Some (("file", FileValue sample_png) :: fields);
             signal := Some (controller_of idle) |}]
       ++ rest)%list /\
    (forall e, In e rest -> is_fetch e = false) /\
    (forall id d, ~ In (EvSetTimeout id d) rest).
Proof.
  exact (proj2 (generateCaption_untouched_iff_invalid (runtime_with healthy) sample_png
                  {| opt_method := None; opt_beamWidth := None |} idle) eq_refl).
Defined.

(** The service is unreachable. *)
Lemma network_fault_example :
  makeRequest (runtime_with offline) "/health" no_options idle
  = (Throw (Native TypeError "Failed to fetch"),
     {| now := 5; armed := []; next_id := 3;
        log := [EvSetTimeout 2 60000;
                EvFetch "http://localhost:8000/health"
                  {| method := None; body := None; signal := Some 1 |};
                EvClearTimeout 2] |}).
Proof.
  apply (network_fault_rethrown (runtime_with offline) "/health" no_options idle
           (t := 5) (m := "Failed to fetch")); reflexivity.
Defined.

Lemma payload_example :
  exists t r,
    issued (runtime_with healthy) "/health" no_options idle = Responds t r /\
    (t <= 60000)%N /\ ok r = true /\
    response_body r = BodyJson (JObject [("status", JString "ok")]).
Proof.
  apply (payload_only_from_success (runtime_with healthy) "/health" no_options idle).
  reflexivity.
Defined.

(** Probing a healthy service twice. *)
Lemma repeated_probe_example :
  fst (checkHealth (runtime_with healthy)
         (snd (checkHealth (runtime_with healthy) idle)))
  = fst (checkHealth (runtime_with healthy) idle).
Proof.
  assert (Hblind : signal_blind (runtime_with healthy))
    by (intros url init c c'; reflexivity).
  apply (proj2 (proj2 (repeated_call_same_completion (rt := runtime_with healthy) Hblind))).
Defined.

Lemma settled_early_example :
  exists rest,
    log (snd (makeRequest (runtime_with healthy) "/health" no_options idle))
    = (log idle ++ call_events (runtime_with healthy) "/health" no_options idle
         ++ rest)%list /\
    (forall e, In e rest -> e = EvClearTimeout (timer_of idle)).
Proof.
  apply (settled_early_never_aborted (runtime_with healthy) "/health" no_options idle
           (t := 20)).
  - left. eexists. reflexivity.
  - reflexivity.
Defined.

Lemma error_status_example : (503 < 200 \/ 299 < 503)%N.
Proof.
  apply (proj2 (proj2 (error_status_never_success (runtime_with unavailable)
                         "HTTP 503" 503)) idle).
  reflexivity.
Defined.

(** An unreachable service brings up the banner. *)
Lemma failed_probe_example :
  shows_unavailable (apiStatus_after (runtime_with offline) idle) = true.
Proof.
  apply (failed_probe_shows_banner (runtime_with offline) idle).
  right. left. exists 5%N, "Failed to fetch". reflexivity.
Defined.

(** A submit against a healthy service. *)
Lemma handleSubmit_enabled_example :
  loading (snd (fst (handleSubmit (runtime_with healthy)
                       (ready_upload sample_png 3) idle))) = false /\
  selectedImage (snd (fst (handleSubmit (runtime_with healthy)
                             (ready_upload sample_png 3) idle))) = Some sample_png /\
  submit_disabled (snd (fst (handleSubmit (runtime_with healthy)
                               (ready_upload sample_png 3) idle))) = false.
Proof.
  apply (proj2 (handleSubmit_settles_enabled (runtime_with healthy)
                  (ready_upload sample_png 3) idle)).
  - reflexivity.
  - discriminate.
Defined.

Lemma handleSubmit_notifies_example :
  (exists data,
     fst (generateCaption (runtime_with healthy) sample_png
            {| opt_method := Some "beam_search"; opt_beamWidth := Some 3%Z |} idle)
     = Return data /\
     captionData (snd (fst (handleSubmit (runtime_with healthy)
                              (ready_upload sample_png 3) idle))) = Some data /\
     alerts (snd (fst (handleSubmit (runtime_with healthy)
                         (ready_upload sample_png 3) idle))) = []) \/
  (exists error,
     fst (generateCaption (runtime_with healthy) sample_png
            {| opt_method := Some "beam_search"; opt_beamWidth := Some 3%Z |} idle)
     = Throw error /\
     alerts (snd (fst (handleSubmit (runtime_with healthy)
                         (ready_upload sample_png 3) idle)))
     = [("Error: " ++ exn_message error)%string] /\
     captionData (snd (fst (handleSubmit (runtime_with healthy)
                              (ready_upload sample_png 3) idle))) = None).
Proof.
  apply (handleSubmit_notifies_once (runtime_with healthy)
           (ready_upload sample_png 3) idle (image := sample_png));
    reflexivity.
Defined.

(** Submitting the 15 MiB PDF. *)
Lemma handleSubmit_invalid_example :
  handleSubmit (runtime_with healthy) (ready_upload sample_scan 3) idle
  = (Return tt,
     {| selectedImage := Some sample_scan; loading := false;
        ui_method := "beam_search"; beamWidth := 3%Z;
        alerts := ["Error: File too large (15.00MB). Max: 10MB, File must be an image"];
        captionData := None |},
     idle).
Proof.
  apply (handleSubmit_invalid_image (runtime_with healthy)
           (ready_upload sample_scan 3) idle (image := sample_scan)).
  - reflexivity.
  - discriminate.
Defined.

Lemma handleSubmit_stalls_example :
  fst (fst (handleSubmit (runtime_with stalled_success)
              (ready_upload sample_png 3) idle)) = Pending /\
  loading (snd (fst (handleSubmit (runtime_with stalled_success)
                       (ready_upload sample_png 3) idle))) = true /\
  submit_disabled (snd (fst (handleSubmit (runtime_with stalled_success)
                               (ready_upload sample_png 3) idle))) = true /\
  alerts (snd (fst (handleSubmit (runtime_with stalled_success)
                      (ready_upload sample_png 3) idle))) = [].
Proof.
  apply (handleSubmit_stalls (runtime_with stalled_success)
           (ready_upload sample_png 3) idle (image := sample_png) (t := 10)
           (r := {| status := 200; response_body := BodyStalls |}));
    reflexivity.
Defined.

Lemma handleSubmit_timeout_example :
  fst (fst (handleSubmit (runtime_with slow) (ready_upload sample_png 3) idle))
  = Return tt /\
  alerts (snd (fst (handleSubmit (runtime_with slow) (ready_upload sample_png 3) idle)))
  = ["Error: Request timeout"] /\
  loading (snd (fst (handleSubmit (runtime_with slow) (ready_upload sample_png 3) idle)))
  = false /\
  captionData (snd (fst (handleSubmit (runtime_with slow)
                           (ready_upload sample_png 3) idle))) = None /\
  now (snd (handleSubmit (runtime_with slow) (ready_upload sample_png 3) idle))
  = 60000%N.
Proof.
  apply (handleSubmit_timeout (runtime_with slow) (ready_upload sample_png 3) idle
           (image := sample_png)); reflexivity.
Defined.

(** A name with two underscores. *)
Lemma method_label_example :
  method_label "beam_search_v2" = "BEAM SEARCH_V2" /\
  occurrences "_" (method_label "beam_search_v2") = 1 /\
  String.length (method_label "beam_search_v2") = 14.
Proof.
  apply (method_label_first_underscore_only "beam" "search_v2"); reflexivity.
Defined.

(** A payload that reports the status ['error'] brings up the banner as
    a failed probe does. *)
Example error_payload_shows_banner :
  shows_unavailable (apiStatus_after (runtime_with failing_health) idle) = true.
Proof. reflexivity. Qed.

(** No base URL. *)
Lemma unset_base_url_example :
  exists rest,
    log (snd (makeRequest (unconfigured healthy) "/health" no_options idle))
    = (log idle ++
       [EvSetTimeout (timer_of idle) 60000;
        EvFetch "undefined/health" (with_signal no_options (controller_of idle))]
       ++ rest)%list.
Proof.
  apply (proj2 (unset_base_url_requests_undefined (unconfigured healthy)
                  "/health" no_options idle eq_refl)).
Defined.

(** Two findings, two [[object Object]]. *)
Lemma detail_list_example :
  fst (makeRequest (runtime_with validation_failure) "/generate-caption"
         no_options idle)
  = Throw (APIError "[object Object],[object Object]" 422).
Proof.
  apply (detail_list_prints_object_Object (runtime_with validation_failure)
           "/generate-caption" no_options idle (t := 10)
           (r := {| status := 422;
                    response_body :=
                      BodyJson (JObject [("detail",
                        JArray [JObject [("msg", JString "field required")];
                                JObject [("msg", JString "value is not a valid integer")]])]) |})
           (props := [("detail",
                        JArray [JObject [("msg", JString "field required")];
                                JObject [("msg", JString "value is not a valid integer")]])])
           (items := [JObject [("msg", JString "field required")];
                      JObject [("msg", JString "value is not a valid integer")]]));
    reflexivity.
Defined.

Lemma handleSubmit_request_example :
  exists rest,
    log (snd (handleSubmit (runtime_with healthy) (ready_upload sample_png 3) idle))
    = (log idle ++
       [EvSetTimeout (timer_of idle) 60000;
        EvFetch "http://localhost:8000/generate-caption"
          {| method := Some "POST";
             body := Some [("file", FileValue sample_png);
                           ("method", StringValue "beam_search");
                           ("beam_width", StringValue "3")];
             signal := Some (controller_of idle) |}] ++ rest)%list.
Proof.
  assert (Hmethod : ui_method (ready_upload sample_png 3) <> "") by discriminate.
  exact (handleSubmit_request_fields (runtime_with healthy)
           (ready_upload sample_png 3) idle (image := sample_png)
           eq_refl eq_refl Hmethod eq_refl).
Defined.
